(** * Watch-tracker: the handlers of [src/app.js] over a model of their collaborators

    [app.js] is one React component. Its logic lives in a handful of
    handlers and effects that talk to three external collaborators: the
    Firestore document store, the Firebase auth provider and the TMDb
    catalog. This development embeds those handlers as computations in a
    state-and-exception monad over

    - the component's React state ([AppState]),
    - the remote document store ([Firestore], a finite map from document
      addresses to field maps),
    - the auth provider ([AuthProvider]),
    - a log of the calls made to the collaborators.

    Answers that only the outside world decides (does the server accept a
    write, which time does it stamp, what does the catalog return) are
    explicit arguments of the handlers, so a theorem quantifying over them
    covers every behaviour of the collaborator. *)

From stdpp Require Import gmap strings list fin_maps sorting pretty.
From Stdlib Require Import ZArith Lia.

Local Open Scope string_scope.
Local Open Scope Z_scope.
Local Open Scope list_scope.

(** ** JavaScript values *)

(** A Firestore [Timestamp]: whole seconds since the epoch and the
    nanosecond fraction. [serverTimestamp()] resolves to one on the server. *)
Record Timestamp := { seconds : Z; nanoseconds : Z }.

(** The values that flow through the handlers: catalog fields, document
    fields, and the [serverTimestamp()] sentinel which only exists between
    the call and the write. *)
Inductive Value :=
| JUndefined
| JNull
| JBool (b : bool)
| JNum (n : Z)
| JStr (s : string)
| JTime (t : Timestamp)
| JServerTimestamp.

#[global] Instance Timestamp_eq_dec : EqDecision Timestamp.
Proof. solve_decision. Defined.
#[global] Instance Value_eq_dec : EqDecision Value.
Proof. solve_decision. Defined.

(** JavaScript truthiness. *)
Definition truthy (v : Value) : bool :=
  match v with
  | JUndefined | JNull => false
  | JBool b => b
  | JNum n => negb (n =? 0)
  | JStr s => negb (bool_decide (s = ""))
  | JTime _ | JServerTimestamp => true
  end.

(** [a || b] *)
Definition js_or (a b : Value) : Value := if truthy a then a else b.

(** [String(v)], also what a template literal does to an interpolated value. *)
Definition js_String (v : Value) : string :=
  match v with
  | JUndefined => "undefined"
  | JNull => "null"
  | JBool true => "true"
  | JBool false => "false"
  | JNum n => pretty n
  | JStr s => s
  | JTime t =>
      "Timestamp(seconds=" +:+ pretty (seconds t) +:+ ", nanoseconds="
        +:+ pretty (nanoseconds t) +:+ ")"
  | JServerTimestamp => "[object Object]"
  end.

(** [s.toLowerCase()] on the characters of one byte: the letters A-Z
    (65-90) and the accented capitals from 192 to 222, of which 215, the
    multiplication sign, is no letter; each is 32 below its small letter. *)
Definition lower_ascii (c : Ascii.ascii) : Ascii.ascii :=
  let n := Ascii.nat_of_ascii c in
  if ((65 <=? n) && (n <=? 90)
      || (192 <=? n) && (n <=? 222) && negb (n =? 215))%nat
  then Ascii.ascii_of_nat (n + 32) else c.

Fixpoint toLowerCase (s : string) : string :=
  match s with
  | EmptyString => EmptyString
  | String c r => String (lower_ascii c) (toLowerCase r)
  end.

(** ** The document store *)

(** The fields of a stored document. *)
Abbreviation DocData := (gmap string Value).

(** A document is addressed by the path of its collection and its id within
    the collection; ids are those the store and the catalog hand out
    (non-empty, without a slash). *)
Abbreviation DocKey := (string * string)%type.

Abbreviation Firestore := (gmap (string * string) DocData).

Inductive Direction := Asc | Desc.

(** [collection(db, path)] *)
Record CollectionReference := collection { coll_path : string }.

(** The constraints handed to [query(...)]. *)
Inductive Constraint :=
| where_ (field op : string) (v : Value)
| firestoreOrderBy (field : string) (dir : Direction)
| limit (n : nat).

(** What [query(collection(db, path), ...constraints)] builds. *)
Record Query := query { q_source : CollectionReference; q_constraints : list Constraint }.

(** The first argument of a read or write: [doc(db, path, id)], or a
    [query(...)] where the caller passes one. *)
Inductive Reference :=
| doc (path id : string)
| ofQuery (q : Query).

(** The two snapshots of the SDK. A [DocumentSnapshot], what [getDoc]
    resolves to, has [id], [exists()] and [data()]; a [QuerySnapshot], what
    running a query resolves to, has [docs], [empty] and [forEach]. *)
Inductive Snapshot :=
| DocumentSnapshot (id : string) (data : option DocData)
| QuerySnapshot (docs : list (string * DocData)).

(** One write of a batch, with the object literal as the caller gave it. *)
Inductive Write :=
| WSet (path id : string) (fields : list (string * Value))
| WDelete (path id : string).

(** The store refuses [undefined] as a field value. *)
Definition validFields (fields : list (string * Value)) : bool :=
  forallb (λ kv, negb (bool_decide (kv.2 = JUndefined))) fields.

(** The server replaces the [serverTimestamp()] sentinel by its clock. *)
Definition resolveValue (now : Timestamp) (v : Value) : Value :=
  match v with
  | JServerTimestamp => JTime now
  | _ => v
  end.

(** The stored form of an object literal; a later key overrides an earlier. *)
Definition toDocData (now : Timestamp) (fields : list (string * Value)) : DocData :=
  foldl (λ m kv, <[kv.1 := resolveValue now kv.2]> m) ∅ fields.

Definition applyWrite (now : Timestamp) (s : Firestore) (w : Write) : Firestore :=
  match w with
  | WSet path id fields => <[(path, id) := toDocData now fields]> s
  | WDelete path id => delete (path, id) s
  end.

Definition applyWrites (now : Timestamp) (s : Firestore) (ws : list Write) : Firestore :=
  foldl (applyWrite now) s ws.

(** The documents of one collection. *)
Definition documentsOf (s : Firestore) (path : string) : Firestore :=
  filter (λ kv, kv.1.1 = path) s.

(** ** The auth provider *)

(** Registered accounts, email to (password, uid); the signed-in uid; and the
    provider's own rules for what email and password it takes. *)
Record AuthProvider := {
  accounts : gmap string (string * string);
  currentUser : option string;
  (* [Some message] when the provider refuses the email or the password *)
  policy : string → string → option string
}.

(** ** The component's state *)

Record Friend := { friend_id : string; friend_displayName : Value }.

(** An entry of the feed: [{ ...doc.data(), id: doc.id, user: friend }]. *)
Record FeedItem := {
  item_data : DocData;
  item_id : string;
  item_user : Friend
}.

(** [item.addedAt]: the spread keeps the document's field. *)
Definition item_addedAt (it : FeedItem) : Value :=
  default JUndefined (item_data it !! "addedAt").

Record AppState := {
  appId : string;
  auth : bool;            (* the [auth] handle has been set *)
  db : bool;              (* the [db] handle has been set *)
  userId : option string; (* [null] when signed out *)
  email : string;
  password : string;
  displayName : string;
  isLoading : bool;
  error : option string;
  friends : list Friend;
  friendsFeed : list FeedItem;
  isFeedLoading : bool
}.

(** The calls a handler makes to its collaborators, in order. *)
Inductive Call :=
| CallGetDoc (r : Reference)
| CallSetDoc (r : Reference)
| CallDeleteDoc (r : Reference)
| CallCommit (ws : list Write)
| CallCreateUser (email password : string)
| CallSignIn (email password : string)
| CallFetch (url : string).

(** ** The monad of handlers *)

Record Env := {
  app : AppState;
  fs : Firestore;
  (* every state the store has been in since the session began, oldest
     first: what another session's live query can have been shown *)
  versions : list Firestore;
  authp : AuthProvider;
  calls : list Call;
  (* rejections of promises nobody awaits or catches *)
  unhandled : list string
}.

Inductive Outcome (A : Type) :=
| Ok (a : A)
| Throw (message : string).
Arguments Ok {A} a.
Arguments Throw {A} message.

Definition M (A : Type) : Type := Env → Outcome A * Env.

Definition ret {A} (a : A) : M A := λ e, (Ok a, e).

Definition bind {A B} (m : M A) (k : A → M B) : M B :=
  λ e, match m e with
       | (Ok a, e') => k a e'
       | (Throw msg, e') => (Throw msg, e')
       end.

Definition throw {A} (msg : string) : M A := λ e, (Throw msg, e).

Notation "'let*' x ':=' m 'in' k" := (bind m (λ x, k))
  (at level 10, x name, m at level 100, k at level 200).
Notation "m '>>' k" := (bind m (λ _, k))
  (at level 100, k at level 200, right associativity).

(** [try { body } catch (err) { handler(err.message) }] *)
Definition try_catch {A} (body : M A) (handler : string → M A) : M A :=
  λ e, match body e with
       | (Ok a, e') => (Ok a, e')
       | (Throw msg, e') => handler msg e'
       end.

(** [try { body } finally { fin }] *)
Definition try_finally {A} (body : M A) (fin : M unit) : M A :=
  λ e, match body e with
       | (r, e') =>
           match fin e' with
           | (Ok _, e'') => (r, e'')
           | (Throw msg, e'') => (Throw msg, e'')
           end
       end.

(** Calling an async function without awaiting it: the caller goes on, a
    rejection is left unhandled. *)
Definition detached (m : M unit) : M unit :=
  λ e, match m e with
       | (Ok _, e') => (Ok tt, e')
       | (Throw msg, e') =>
           (Ok tt, {| app := app e'; fs := fs e'; versions := versions e';
                      authp := authp e'; calls := calls e';
                      unhandled := unhandled e' ++ [msg] |})
       end.

Definition getApp : M AppState := λ e, (Ok (app e), e).

Definition modifyApp (f : AppState → AppState) : M unit :=
  λ e, (Ok tt, {| app := f (app e); fs := fs e; versions := versions e;
                  authp := authp e; calls := calls e; unhandled := unhandled e |}).

Definition logCall (c : Call) : M unit :=
  λ e, (Ok tt, {| app := app e; fs := fs e; versions := versions e;
                  authp := authp e; calls := calls e ++ [c];
                  unhandled := unhandled e |}).

Definition getStore : M Firestore := λ e, (Ok (fs e), e).

(** A committed write: the store moves to [s], and [s] joins the states it
    has been in. *)
Definition putStore (s : Firestore) : M unit :=
  λ e, (Ok tt, {| app := app e; fs := s; versions := versions e ++ [s];
                  authp := authp e; calls := calls e; unhandled := unhandled e |}).

Definition getAuth : M AuthProvider := λ e, (Ok (authp e), e).

Definition putAuth (a : AuthProvider) : M unit :=
  λ e, (Ok tt, {| app := app e; fs := fs e; versions := versions e;
                  authp := a; calls := calls e; unhandled := unhandled e |}).

(** ** The state setters of the component *)

Definition setIsLoading (b : bool) : M unit :=
  modifyApp (λ st,
    {| appId := appId st; auth := auth st; db := db st; userId := userId st;
       email := email st; password := password st; displayName := displayName st;
       isLoading := b; error := error st; friends := friends st;
       friendsFeed := friendsFeed st; isFeedLoading := isFeedLoading st |}).

Definition setError (msg : option string) : M unit :=
  modifyApp (λ st,
    {| appId := appId st; auth := auth st; db := db st; userId := userId st;
       email := email st; password := password st; displayName := displayName st;
       isLoading := isLoading st; error := msg; friends := friends st;
       friendsFeed := friendsFeed st; isFeedLoading := isFeedLoading st |}).

Definition setFriendsFeed (feed : list FeedItem) : M unit :=
  modifyApp (λ st,
    {| appId := appId st; auth := auth st; db := db st; userId := userId st;
       email := email st; password := password st; displayName := displayName st;
       isLoading := isLoading st; error := error st; friends := friends st;
       friendsFeed := feed; isFeedLoading := isFeedLoading st |}).

Definition setIsFeedLoading (b : bool) : M unit :=
  modifyApp (λ st,
    {| appId := appId st; auth := auth st; db := db st; userId := userId st;
       email := email st; password := password st; displayName := displayName st;
       isLoading := isLoading st; error := error st; friends := friends st;
       friendsFeed := friendsFeed st; isFeedLoading := b |}).

(** ** The Firestore SDK, as far as [app.js] imports it *)

(** The message of the SDK's invalid-argument error for a reference of the
    wrong class. *)
Definition invalid_argument : string :=
  "Expected type 'DocumentReference', but it was: a custom Query object".

Definition unsupported_undefined : string :=
  "Unsupported field value: undefined".

Definition write_rejected : string :=
  "Missing or insufficient permissions.".

(** A collection path as the list of its segments: the template literal
    [`artifacts/${appId}/public/users`] has the four segments between its
    slashes, an interpolated [appId] or id being one of them (they are names
    without a slash). [joinPath] is the string the literal evaluates to. *)
Fixpoint joinPath (segments : list string) : string :=
  match segments with
  | [] => ""
  | s :: rest =>
      match rest with
      | [] => s
      | _ => s +:+ "/" +:+ joinPath rest
      end
  end.

(** The message of the SDK's refusal of a document path with an odd number
    of segments (such a path names a collection). *)
Definition invalid_document (segments : list string) : string :=
  "Invalid document reference. Document references must have an even number of segments, but "
    +:+ joinPath segments +:+ " has " +:+ pretty (length segments) +:+ ".".

(** [doc(db, path, id)] throws when [db] is [null], when [id] is not a
    string, and when [path] and [id] together have an odd number of
    segments. *)
Definition docRef (segments : list string) (id : option string) : M Reference :=
  let* st := getApp in
  if negb (db st) then throw "Expected first argument to doc() to be a FirebaseFirestore"
  else match id with
       | Some i =>
           if Nat.odd (length (segments ++ [i])) then throw (invalid_document (segments ++ [i]))
           else ret (doc (joinPath segments) i)
       | None => throw "Cannot read properties of null (reading 'indexOf')"
       end.

(** The message of the SDK's refusal of a collection path with an even
    number of segments (such a path names a document). *)
Definition invalid_collection (segments : list string) : string :=
  "Invalid collection reference. Collection references must have an odd number of segments, but "
    +:+ joinPath segments +:+ " has " +:+ pretty (length segments) +:+ ".".

(** [collection(db, path)] throws when [db] is [null], and when the path has
    an even number of segments. *)
Definition collectionRef (segments : list string) : M CollectionReference :=
  let* st := getApp in
  if negb (db st) then throw "Expected first argument to collection() to be a FirebaseFirestore"
  else if Nat.even (length segments) then throw (invalid_collection segments)
  else ret (collection (joinPath segments)).

(** [getDoc(reference)] is the point read: it resolves to the
    [DocumentSnapshot] of one document. Its argument is cast to a
    [DocumentReference]; a [Query] is refused with invalid-argument before
    anything is sent. (Running a query is [getDocs], which [app.js] does
    not import.) *)
Definition getDoc (r : Reference) : M Snapshot :=
  logCall (CallGetDoc r) >>
  match r with
  | doc path id =>
      let* s := getStore in
      ret (DocumentSnapshot id (s !! (path, id)))
  | ofQuery _ => throw invalid_argument
  end.

(** [snap.empty] *)
Definition snapshot_empty (snap : Snapshot) : Value :=
  match snap with
  | QuerySnapshot docs => JBool (bool_decide (docs = []))
  | DocumentSnapshot _ _ => JUndefined
  end.

(** [snap.forEach(f)], with the array [f] pushes to threaded through. *)
Definition snapshot_forEach {S} (snap : Snapshot)
    (f : string * DocData → S → S) (acc : S) : M S :=
  match snap with
  | QuerySnapshot docs => ret (foldl (λ a d, f d a) acc docs)
  | DocumentSnapshot _ _ => throw "snap.forEach is not a function"
  end.

(** [setDoc(reference, data)]: [accepted] is the server's verdict, [now] its
    clock. *)
Definition setDoc (accepted : bool) (now : Timestamp) (r : Reference)
    (fields : list (string * Value)) : M unit :=
  logCall (CallSetDoc r) >>
  match r with
  | doc path id =>
      if negb (validFields fields) then throw unsupported_undefined
      else if accepted then
        let* s := getStore in
        putStore (applyWrite now s (WSet path id fields))
      else throw write_rejected
  | ofQuery _ => throw invalid_argument
  end.

(** [deleteDoc(reference)]: deleting a document that is not there succeeds. *)
Definition deleteDoc (accepted : bool) (r : Reference) : M unit :=
  logCall (CallDeleteDoc r) >>
  match r with
  | doc path id =>
      if accepted then
        let* s := getStore in
        putStore (delete (path, id) s)
      else throw write_rejected
  | ofQuery _ => throw invalid_argument
  end.

(** [writeBatch(db)] and its [set], [delete] and [commit]. The batch is a
    local object; only [commit] reaches the store, and it applies all of
    the writes or none. *)
Definition writeBatch : M (list Write) :=
  let* st := getApp in
  if negb (db st) then throw "Cannot use 'in' operator to search for '_delegate' in null"
  else ret [].

Definition batch_set (batch : list Write) (r : Reference)
    (fields : list (string * Value)) : M (list Write) :=
  match r with
  | doc path id =>
      if negb (validFields fields) then throw unsupported_undefined
      else ret (batch ++ [WSet path id fields])
  | ofQuery _ => throw invalid_argument
  end.

Definition batch_delete (batch : list Write) (r : Reference) : M (list Write) :=
  match r with
  | doc path id => ret (batch ++ [WDelete path id])
  | ofQuery _ => throw invalid_argument
  end.

Definition batch_commit (accepted : bool) (now : Timestamp) (batch : list Write) : M unit :=
  logCall (CallCommit batch) >>
  if accepted then
    let* s := getStore in
    putStore (applyWrites now s batch)
  else throw write_rejected.

(** ** The auth SDK *)

(** [createUserWithEmailAndPassword]: [uid] is the id the provider assigns.
    The new account is also signed in. *)
Definition createUserWithEmailAndPassword (uid email password : string) : M string :=
  logCall (CallCreateUser email password) >>
  let* a := getAuth in
  match policy a email password with
  | Some msg => throw msg
  | None =>
      match accounts a !! email with
      | Some _ => throw "Firebase: Error (auth/email-already-in-use)."
      | None =>
          putAuth {| accounts := <[email := (password, uid)]> (accounts a);
                     currentUser := Some uid;
                     policy := policy a |} >>
          ret uid
      end
  end.

(** [signInWithEmailAndPassword] *)
Definition signInWithEmailAndPassword (email password : string) : M string :=
  logCall (CallSignIn email password) >>
  let* a := getAuth in
  match accounts a !! email with
  | Some (pw, uid) =>
      if bool_decide (pw = password) then
        putAuth {| accounts := accounts a; currentUser := Some uid;
                   policy := policy a |} >>
        ret uid
      else throw "Firebase: Error (auth/invalid-credential)."
  | None => throw "Firebase: Error (auth/invalid-credential)."
  end.

(** ** The handlers of [App] *)

(** [`${userId}`] in a template literal. *)
Definition tpl (o : option string) : string :=
  match o with
  | Some u => u
  | None => "null"
  end.

(** [!userId] *)
Definition js_not (o : option string) : bool :=
  match o with
  | Some u => bool_decide (u = "")
  | None => true
  end.

(** *** Friends feed loader (the effect on [friends, db, appId]) *)

(** The comparator handed to [feed.sort]: the key of an entry is
    [addedAt?.seconds || 0]. *)
Definition secondsOrZero (v : Value) : Z :=
  match v with
  | JTime t => if seconds t =? 0 then 0 else seconds t
  | _ => 0
  end.

Definition feedCompare (a b : FeedItem) : Z :=
  secondsOrZero (item_addedAt b) - secondsOrZero (item_addedAt a).

(** [Array.prototype.sort(cmp)]: the stable sort by [cmp]; an element stays
    before those it does not compare greater than. *)
Fixpoint js_sort_insert {A} (cmp : A → A → Z) (x : A) (l : list A) : list A :=
  match l with
  | [] => [x]
  | y :: r => if cmp x y <=? 0 then x :: y :: r else y :: js_sort_insert cmp x r
  end.

Fixpoint js_sort {A} (cmp : A → A → Z) (l : list A) : list A :=
  match l with
  | [] => []
  | x :: r => js_sort_insert cmp x (js_sort cmp r)
  end.

(** Line 175, the value handed to [setFriendsFeed]. *)
Definition sortFeed (feed : list FeedItem) : list FeedItem :=
  js_sort feedCompare feed.

(** The body of [for (const friend of friends)], with the local [feed]
    array threaded through. *)
Fixpoint fetchLoop (friends : list Friend) (appId : string)
    (feed : list FeedItem) : M (list FeedItem) :=
  match friends with
  | [] => ret feed
  | friend :: rest =>
      let friendWatchedPath :=
        ["artifacts"; appId; "users"; friend_id friend; "watchedList"] in
      let* c := collectionRef friendWatchedPath in
      let q := query c [firestoreOrderBy "addedAt" Desc; limit 5] in
      let* snap := getDoc (ofQuery q) in
      let* feed' :=
        snapshot_forEach snap
          (λ d feed, feed ++ [{| item_data := d.2; item_id := d.1; item_user := friend |}])
          feed in
      fetchLoop rest appId feed'
  end.

Definition fetchFeeds (st : AppState) : M unit :=
  let* feed := fetchLoop (friends st) (appId st) [] in
  setFriendsFeed (sortFeed feed) >>
  setIsFeedLoading false.

Definition friendsFeedEffect : M unit :=
  let* st := getApp in
  if (length (friends st) =? 0)%nat then
    setFriendsFeed []
  else
    setIsFeedLoading true >>
    detached (fetchFeeds st).

(** *** Auth functions *)

Definition handleSignup (uid : string) (accepted : bool) (now : Timestamp) : M unit :=
  let* st := getApp in
  if negb (auth st) || negb (db st) then ret tt
  else if (String.length (displayName st) <? 3)%nat then
    setError (Some "Display name must be at least 3 characters.")
  else
    setIsLoading true >>
    setError None >>
    try_finally
      (try_catch
         (let* usersRef := collectionRef ["artifacts"; appId st; "public"; "users"] in
          let q := query usersRef
                     [where_ "displayName_lower" "==" (JStr (toLowerCase (displayName st)))] in
          let* nameCheck := getDoc (ofQuery q) in
          if negb (truthy (snapshot_empty nameCheck)) then
            throw "Display name is already taken."
          else
            let* userCredential := createUserWithEmailAndPassword uid (email st) (password st) in
            let* r := docRef ["artifacts"; appId st; "public"; "users"] (Some userCredential) in
            setDoc accepted now r
              [("displayName", JStr (displayName st));
               ("displayName_lower", JStr (toLowerCase (displayName st)))])
         (λ msg, setError (Some msg)))
      (setIsLoading false).

Definition handleLogin : M unit :=
  let* st := getApp in
  if negb (auth st) then ret tt
  else
    setIsLoading true >>
    setError None >>
    try_finally
      (try_catch
         (signInWithEmailAndPassword (email st) (password st) >> ret tt)
         (λ msg, setError (Some msg)))
      (setIsLoading false).

(** *** Media functions *)

Definition TMDB_API_KEY : string := "YOUR_TMDB_API_KEY".
Definition TMDB_API_URL : string := "https://api.themoviedb.org/3".

(** An entry of the catalog's search results. *)
Record CatalogItem := {
  ci_id : Value;
  ci_media_type : Value;
  ci_title : Value;
  ci_name : Value;
  ci_poster_path : Value;
  ci_release_date : Value;
  ci_first_air_date : Value
}.

(** The parsed body of the catalog's detail answer, as far as it is read. *)
Record DetailData := {
  runtime : Value;
  episode_run_time : option (list Value)
}.

(** [await (await fetch(url)).json()]: [answer] is what the catalog does. *)
Definition fetch_json (answer : Outcome DetailData) (url : string) : M DetailData :=
  logCall (CallFetch url) >>
  match answer with
  | Ok d => ret d
  | Throw msg => throw msg
  end.

Definition addToList (answer : Outcome DetailData) (accepted : bool) (now : Timestamp)
    (item : CatalogItem) (listType : string) : M unit :=
  let* st := getApp in
  if negb (db st) || js_not (userId st) then ret tt
  else
    let listPath :=
      if bool_decide (listType = "watched")
      then ["artifacts"; appId st; "users"; tpl (userId st); "watchedList"]
      else ["artifacts"; appId st; "users"; tpl (userId st); "wishlist"] in
    try_catch
      (let detailUrl :=
         TMDB_API_URL +:+ "/" +:+ js_String (ci_media_type item) +:+ "/"
           +:+ js_String (ci_id item) +:+ "?api_key=" +:+ TMDB_API_KEY in
       let* detailData := fetch_json answer detailUrl in
       let runtime :=
         js_or (js_or (runtime detailData)
                      (match episode_run_time detailData with
                       | Some l => default JUndefined (head l)
                       | None => JNum 0
                       end))
               (JNum 0) in
       let* r := docRef listPath (Some (js_String (ci_id item))) in
       setDoc accepted now r
         [("title", js_or (ci_title item) (ci_name item));
          ("poster_path", ci_poster_path item);
          ("media_type", ci_media_type item);
          ("release_date", js_or (ci_release_date item) (ci_first_air_date item));
          ("runtime", runtime);
          ("addedAt", JServerTimestamp)])
      (λ _, setError (Some ("Could not add to " +:+ listType +:+ " list."))).

Definition removeFromList (accepted : bool) (itemId : Value) (listType : string) : M unit :=
  let* st := getApp in
  if negb (db st) || js_not (userId st) then ret tt
  else
    let listPath :=
      if bool_decide (listType = "watched")
      then ["artifacts"; appId st; "users"; tpl (userId st); "watchedList"]
      else ["artifacts"; appId st; "users"; tpl (userId st); "wishlist"] in
    let* r := docRef listPath (Some (js_String itemId)) in
    detached (deleteDoc accepted r).

(** *** Social functions *)

(** An entry of [friendRequests]: the id of the request document is the
    sender's account id. *)
Record FriendRequest := { request_id : string; request_displayName : Value }.

Definition handleFriendRequest (accepted : bool) (now : Timestamp)
    (request : FriendRequest) (action : string) : M unit :=
  let* st := getApp in
  if bool_decide (action = "accept") then
    let* batch := writeBatch in
    (* Add to own friends list *)
    let* own := docRef ["artifacts"; appId st; "users"; tpl (userId st); "friends"]
                  (Some (request_id request)) in
    let* batch := batch_set batch own [("displayName", request_displayName request)] in
    (* Add to their friends list *)
    let* their := docRef ["artifacts"; appId st; "users"; request_id request; "friends"]
                    (userId st) in
    let* batch := batch_set batch their [("displayName", JStr (displayName st))] in
    (* Delete request *)
    let* req := docRef ["artifacts"; appId st; "users"; tpl (userId st); "friendRequests"]
                  (Some (request_id request)) in
    let* batch := batch_delete batch req in
    batch_commit accepted now batch
  else (* Decline *)
    let* req := docRef ["artifacts"; appId st; "users"; tpl (userId st); "friendRequests"]
                  (Some (request_id request)) in
    deleteDoc accepted req.

(** ** What the properties talk about *)

(** The key [feed.sort] orders by. *)
Definition feedKey (it : FeedItem) : Z := secondsOrZero (item_addedAt it).

(** The order the specification gives the feed: by [addedAt] itself, newest
    first, an entry without a timestamp counting as time 0. *)
Definition epoch : Timestamp := {| seconds := 0; nanoseconds := 0 |}.

Definition addedAtOrEpoch (it : FeedItem) : Timestamp :=
  match item_addedAt it with
  | JTime t => t
  | _ => epoch
  end.

Definition notAfter (t1 t2 : Timestamp) : Prop :=
  seconds t1 < seconds t2
  ∨ (seconds t1 = seconds t2 ∧ nanoseconds t1 ≤ nanoseconds t2).

Definition sortedByAddedAtDescending (feed : list FeedItem) : Prop :=
  StronglySorted (λ a b, notAfter (addedAtOrEpoch b) (addedAtOrEpoch a)) feed.


(** The catalog entry defines every field [addToList] copies from it, so the
    store does not refuse the document. *)
Definition writable (item : CatalogItem) : bool :=
  validFields
    [("title", js_or (ci_title item) (ci_name item));
     ("poster_path", ci_poster_path item);
     ("media_type", ci_media_type item);
     ("release_date", js_or (ci_release_date item) (ci_first_air_date item))].

(** ** Sample sessions *)

Definition noon : Timestamp := {| seconds := 1700000000; nanoseconds := 0 |}.
Definition afterNoon : Timestamp := {| seconds := 1700000600; nanoseconds := 250000000 |}.

Definition emptyProvider : AuthProvider :=
  {| accounts := ∅; currentUser := None; policy := λ _ _, None |}.

Definition annProvider : AuthProvider :=
  {| accounts := {[ "ann@example.com" := ("correct horse", "ann-uid") ]};
     currentUser := Some "ann-uid";
     policy := λ _ _, None |}.

(** The sign-up form, filled in, before anybody is signed in. *)
Definition signupForm (name : string) : AppState :=
  {| appId := "watch-tracker"; auth := true; db := true; userId := None;
     email := "ann@example.com"; password := "correct horse"; displayName := name;
     isLoading := false; error := None; friends := [];
     friendsFeed := []; isFeedLoading := false |}.

(** Ann, signed in, with the given friends. *)
Definition annSession (fr : list Friend) : AppState :=
  {| appId := "watch-tracker"; auth := true; db := true; userId := Some "ann-uid";
     email := "ann@example.com"; password := "correct horse"; displayName := "Ann Lee";
     isLoading := false; error := None; friends := fr;
     friendsFeed := []; isFeedLoading := false |}.

Definition world (st : AppState) (provider : AuthProvider) (s : Firestore) : Env :=
  {| app := st; fs := s; versions := [s]; authp := provider;
     calls := []; unhandled := [] |}.

Definition watchedEntry (title : string) (t : Timestamp) : DocData :=
  toDocData t
    [("title", JStr title); ("poster_path", JNull); ("media_type", JStr "movie");
     ("release_date", JStr "2020-01-01"); ("runtime", JNum 100);
     ("addedAt", JServerTimestamp)].

Definition friendF1 : Friend := {| friend_id := "f1"; friend_displayName := JStr "Finn" |}.
Definition friendF2 : Friend := {| friend_id := "f2"; friend_displayName := JStr "Gwen" |}.

Definition at_ (s : Z) : Timestamp := {| seconds := s; nanoseconds := 0 |}.

(** F1 has watched three titles, F2 six, all of F2's after all of F1's. *)
Definition twoFriendsStore : Firestore :=
  list_to_map
    [ (("artifacts/watch-tracker/users/f1/watchedList", "101"), watchedEntry "Alien" (at_ 300));
      (("artifacts/watch-tracker/users/f1/watchedList", "102"), watchedEntry "Brazil" (at_ 200));
      (("artifacts/watch-tracker/users/f1/watchedList", "103"), watchedEntry "Contact" (at_ 100));
      (("artifacts/watch-tracker/users/f2/watchedList", "201"), watchedEntry "Dune" (at_ 1600));
      (("artifacts/watch-tracker/users/f2/watchedList", "202"), watchedEntry "Eraserhead" (at_ 1500));
      (("artifacts/watch-tracker/users/f2/watchedList", "203"), watchedEntry "Fargo" (at_ 1400));
      (("artifacts/watch-tracker/users/f2/watchedList", "204"), watchedEntry "Gattaca" (at_ 1300));
      (("artifacts/watch-tracker/users/f2/watchedList", "205"), watchedEntry "Heat" (at_ 1200));
      (("artifacts/watch-tracker/users/f2/watchedList", "206"), watchedEntry "Ikiru" (at_ 1100)) ].

Definition twoFriendsWorld : Env :=
  world (annSession [friendF1; friendF2]) annProvider twoFriendsStore.

(** Two entries of different friends stamped within the same second, the
    older one fetched first. *)
Definition sameSecondFeed : list FeedItem :=
  [ {| item_data := watchedEntry "Alien" {| seconds := 5; nanoseconds := 0 |};
       item_id := "348"; item_user := friendF1 |};
    {| item_data := watchedEntry "Brazil" {| seconds := 5; nanoseconds := 1 |};
       item_id := "68"; item_user := friendF2 |} ].

(** An entry without [addedAt], fetched before one that has it. *)
Definition undatedItem : FeedItem :=
  {| item_data := {[ "title" := JStr "Jaws" ]}; item_id := "578"; item_user := friendF1 |}.

Definition datedItem : FeedItem :=
  {| item_data := watchedEntry "Brazil" (at_ 200); item_id := "68"; item_user := friendF2 |}.

(** A pending request from Sam in Ann's inbox. *)
Definition samRequest : FriendRequest :=
  {| request_id := "sam-uid"; request_displayName := JStr "Sam Roe" |}.

Definition pendingStore : Firestore :=
  {[ ("artifacts/watch-tracker/users/ann-uid/friendRequests", "sam-uid")
       := toDocData noon [("displayName", JStr "Sam Roe"); ("addedAt", JServerTimestamp)] ]}.

Definition pendingWorld : Env := world (annSession []) annProvider pendingStore.

(** Catalog entries: a movie and a series that share the numeric id 1399. *)
Definition movie1399 : CatalogItem :=
  {| ci_id := JNum 1399; ci_media_type := JStr "movie"; ci_title := JStr "Old Film";
     ci_name := JUndefined; ci_poster_path := JNull;
     ci_release_date := JStr "1999-03-31"; ci_first_air_date := JUndefined |}.

Definition series1399 : CatalogItem :=
  {| ci_id := JNum 1399; ci_media_type := JStr "tv"; ci_title := JUndefined;
     ci_name := JStr "Long Series"; ci_poster_path := JStr "/poster.jpg";
     ci_release_date := JUndefined; ci_first_air_date := JStr "2011-04-17" |}.

Definition movieDetail : DetailData := {| runtime := JNum 136; episode_run_time := None |}.
Definition seriesDetail : DetailData :=
  {| runtime := JUndefined; episode_run_time := Some [JNum 60] |}.

Definition annWorld : Env := world (annSession []) annProvider ∅.


(** ** More of [App]: requests sent, searches, providers, and what is shown *)

(** *** The rest of the component's state *)

(** An entry of [userSearchResults]: [{ id: d.id, ...d.data() }], where a
    field of the document called [id] would take the place of the
    document's id. *)
Record UserResult := { result_id : Value; result_data : DocData }.

Definition userResultOf (d : string * DocData) : UserResult :=
  {| result_id := default (JStr d.1) (d.2 !! "id"); result_data := d.2 |}.

(** One streaming service of the catalog's answer, and the services of one
    region. *)
Record Provider := { provider_id : Value; provider_name : Value; logo_path : Value }.

Record RegionProviders := {
  link : Value;
  flatrate : option (list Provider);
  rent : option (list Provider);
  buy : option (list Provider)
}.

(** The object held in [watchProviders]: [{ loading }], or
    [{ data, loading, item }]. *)
Record ProvidersState := {
  wp_loading : bool;
  wp_data : option RegionProviders;
  wp_item : option CatalogItem
}.

(** The state variables of [App] that the handlers below read and set. *)
Record ViewState := {
  searchTerm : string;
  isSearching : bool;
  searchResults : list CatalogItem;
  userSearchTerm : string;
  isUserSearching : bool;
  userSearchResults : list UserResult;
  watchProviders : option ProvidersState; (* [null] at first *)
  isProviderModalOpen : bool
}.

(** Handlers over both parts of the state: what they set stays set when
    they throw. *)
Definition V (A : Type) : Type := ViewState → Env → Outcome A * (ViewState * Env).

Definition retV {A} (a : A) : V A := λ v e, (Ok a, (v, e)).

Definition bindV {A B} (m : V A) (k : A → V B) : V B :=
  λ v e, match m v e with
         | (Ok a, (v', e')) => k a v' e'
         | (Throw msg, s) => (Throw msg, s)
         end.

Definition throwV {A} (msg : string) : V A := λ v e, (Throw msg, (v, e)).

Definition liftV {A} (m : M A) : V A :=
  λ v e, match m e with
         | (r, e') => (r, (v, e'))
         end.

Notation "'let+' x ':=' m 'in' k" := (bindV m (λ x, k))
  (at level 10, x name, m at level 100, k at level 200).
Notation "m '>>>' k" := (bindV m (λ _, k))
  (at level 100, k at level 200, right associativity).

Definition try_catchV {A} (body : V A) (handler : string → V A) : V A :=
  λ v e, match body v e with
         | (Ok a, s) => (Ok a, s)
         | (Throw msg, (v', e')) => handler msg v' e'
         end.

Definition try_finallyV {A} (body : V A) (fin : V unit) : V A :=
  λ v e, match body v e with
         | (r, (v', e')) =>
             match fin v' e' with
             | (Ok _, s) => (r, s)
             | (Throw msg, s) => (Throw msg, s)
             end
         end.

Definition getView : V ViewState := λ v e, (Ok v, (v, e)).

Definition modifyView (f : ViewState → ViewState) : V unit := λ v e, (Ok tt, (f v, e)).

Definition setIsSearching (b : bool) : V unit :=
  modifyView (λ v,
    {| searchTerm := searchTerm v; isSearching := b; searchResults := searchResults v;
       userSearchTerm := userSearchTerm v; isUserSearching := isUserSearching v;
       userSearchResults := userSearchResults v; watchProviders := watchProviders v;
       isProviderModalOpen := isProviderModalOpen v |}).

Definition setSearchResults (l : list CatalogItem) : V unit :=
  modifyView (λ v,
    {| searchTerm := searchTerm v; isSearching := isSearching v; searchResults := l;
       userSearchTerm := userSearchTerm v; isUserSearching := isUserSearching v;
       userSearchResults := userSearchResults v; watchProviders := watchProviders v;
       isProviderModalOpen := isProviderModalOpen v |}).

Definition setIsUserSearching (b : bool) : V unit :=
  modifyView (λ v,
    {| searchTerm := searchTerm v; isSearching := isSearching v;
       searchResults := searchResults v;
       userSearchTerm := userSearchTerm v; isUserSearching := b;
       userSearchResults := userSearchResults v; watchProviders := watchProviders v;
       isProviderModalOpen := isProviderModalOpen v |}).

Definition setUserSearchResults (l : list UserResult) : V unit :=
  modifyView (λ v,
    {| searchTerm := searchTerm v; isSearching := isSearching v;
       searchResults := searchResults v;
       userSearchTerm := userSearchTerm v; isUserSearching := isUserSearching v;
       userSearchResults := l; watchProviders := watchProviders v;
       isProviderModalOpen := isProviderModalOpen v |}).

Definition setWatchProviders (p : option ProvidersState) : V unit :=
  modifyView (λ v,
    {| searchTerm := searchTerm v; isSearching := isSearching v;
       searchResults := searchResults v;
       userSearchTerm := userSearchTerm v; isUserSearching := isUserSearching v;
       userSearchResults := userSearchResults v; watchProviders := p;
       isProviderModalOpen := isProviderModalOpen v |}).

Definition setIsProviderModalOpen (b : bool) : V unit :=
  modifyView (λ v,
    {| searchTerm := searchTerm v; isSearching := isSearching v;
       searchResults := searchResults v;
       userSearchTerm := userSearchTerm v; isUserSearching := isUserSearching v;
       userSearchResults := userSearchResults v; watchProviders := watchProviders v;
       isProviderModalOpen := b |}).

(** *** String built-ins *)

(** The white space [trim] removes, among the characters of one byte: tab,
    the line and page breaks, the space and the no-break space. *)
Definition isWhiteSpace (c : Ascii.ascii) : bool :=
  let n := Ascii.nat_of_ascii c in
  ((9 <=? n) && (n <=? 13) || (n =? 32) || (n =? 160))%nat.

Fixpoint trimStart (s : string) : string :=
  match s with
  | EmptyString => EmptyString
  | String c r => if isWhiteSpace c then trimStart r else s
  end.

Definition trimEnd (s : string) : string := String.rev (trimStart (String.rev s)).

(** [s.trim()] *)
Definition trim (s : string) : string := trimEnd (trimStart s).

(** [encodeURIComponent(s)]: letters, digits and [- _ . ! ~ * ' ( )] stay,
    every other character becomes the [%XX] of its UTF-8 bytes. *)
Definition unreserved (c : Ascii.ascii) : bool :=
  let n := Ascii.nat_of_ascii c in
  ((48 <=? n) && (n <=? 57) || (65 <=? n) && (n <=? 90) || (97 <=? n) && (n <=? 122)
   || (n =? 45) || (n =? 95) || (n =? 46) || (n =? 33) || (n =? 126) || (n =? 42)
   || (n =? 39) || (n =? 40) || (n =? 41))%nat.

Definition hexDigit (n : nat) : Ascii.ascii :=
  Ascii.ascii_of_nat (if (n <? 10)%nat then 48 + n else 55 + n).

(** [%] (character 37) and the two hexadecimal digits of a byte. *)
Definition percentByte (b : nat) : string :=
  String (Ascii.ascii_of_nat 37) (String (hexDigit (b / 16)) (String (hexDigit (b mod 16)) EmptyString)).

Definition encodeChar (c : Ascii.ascii) : string :=
  let n := Ascii.nat_of_ascii c in
  if unreserved c then String c EmptyString
  else if (n <? 128)%nat then percentByte n
  else percentByte (192 + n / 64) +:+ percentByte (128 + n mod 64).

Fixpoint encodeURIComponent (s : string) : string :=
  match s with
  | EmptyString => EmptyString
  | String c r => encodeChar c +:+ encodeURIComponent r
  end.

(** [s.split(sep)[0]]: what comes before the first [sep]. *)
Fixpoint beforeFirst (sep : Ascii.ascii) (s : string) : string :=
  match s with
  | EmptyString => EmptyString
  | String c r => if bool_decide (c = sep) then EmptyString else String c (beforeFirst sep r)
  end.

(** The character U+F8FF of [searchUsers]' upper bound. It is the one
    character of the source beyond the one-byte characters of [string], and
    is written as the three bytes of its UTF-8 form, the form in which the
    store compares strings. *)
Definition uF8FF : string :=
  String (Ascii.ascii_of_nat 239)
    (String (Ascii.ascii_of_nat 163) (String (Ascii.ascii_of_nat 191) EmptyString)).

(** *** Media search *)

(** The parsed body of the catalog's search answer: [data.results], absent
    when the body has no such array. *)
Record SearchData := { results : option (list CatalogItem) }.

Definition fetch_search (answer : Outcome SearchData) (url : string) : M SearchData :=
  logCall (CallFetch url) >>
  match answer with
  | Ok d => ret d
  | Throw msg => throw msg
  end.

(** [item.media_type === 'movie' || item.media_type === 'tv'] *)
Definition isMovieOrTv (item : CatalogItem) : bool :=
  bool_decide (ci_media_type item = JStr "movie")
  || bool_decide (ci_media_type item = JStr "tv").

(** [searchMedia], with [apiKey] for the constant [TMDB_API_KEY] that the
    source tells its deployer to replace. *)
Definition searchMediaWith (apiKey : string) (answer : Outcome SearchData) : V unit :=
  let+ v := getView in
  if bool_decide (trim (searchTerm v) = "") || bool_decide (apiKey = "YOUR_TMDB_API_KEY")
  then
    if bool_decide (apiKey = "YOUR_TMDB_API_KEY")
    then liftV (setError (Some "Please add your TMDb API key."))
    else retV tt
  else
    setIsSearching true >>>
    try_finallyV
      (try_catchV
         (let+ data :=
            liftV (fetch_search answer
                     (TMDB_API_URL +:+ "/search/multi?api_key=" +:+ apiKey +:+ "&query="
                        +:+ encodeURIComponent (searchTerm v))) in
          match results data with
          | Some l => setSearchResults (List.filter isMovieOrTv l)
          | None => throwV "Cannot read properties of undefined (reading 'filter')"
          end)
         (λ _, liftV (setError (Some "Failed to search media."))))
      (setIsSearching false).

Definition searchMedia (answer : Outcome SearchData) : V unit :=
  searchMediaWith TMDB_API_KEY answer.

(** *** Where to watch *)

(** The parsed body of the providers answer: [data.results], a map from
    region to providers, absent when the body has none. *)
Record ProvidersData := { regions : option (gmap string RegionProviders) }.

Definition fetch_providers (answer : Outcome ProvidersData) (url : string) : M ProvidersData :=
  logCall (CallFetch url) >>
  match answer with
  | Ok d => ret d
  | Throw msg => throw msg
  end.

Definition fetchWatchProviders (answer : Outcome ProvidersData) (item : CatalogItem) : V unit :=
  setIsProviderModalOpen true >>>
  setWatchProviders (Some {| wp_loading := true; wp_data := None; wp_item := None |}) >>>
  try_catchV
    (let+ data :=
       liftV (fetch_providers answer
                (TMDB_API_URL +:+ "/" +:+ js_String (ci_media_type item) +:+ "/"
                   +:+ js_String (ci_id item) +:+ "/watch/providers?api_key=" +:+ TMDB_API_KEY)) in
     match regions data with
     | Some rs =>
         (* Filter for India *)
         setWatchProviders
           (Some {| wp_loading := false; wp_data := rs !! "IN"; wp_item := Some item |})
     | None => throwV "Cannot read properties of undefined (reading 'IN')"
     end)
    (λ _,
       liftV (setError (Some "Could not fetch providers.")) >>>
       setWatchProviders (Some {| wp_loading := false; wp_data := None; wp_item := None |})).

(** *** Social functions, continued *)

(** [snap.docs] *)
Definition snapshot_docs (snap : Snapshot) : M (list (string * DocData)) :=
  match snap with
  | QuerySnapshot docs => ret docs
  | DocumentSnapshot _ _ => throw "Cannot read properties of undefined (reading 'map')"
  end.

(** [u.id !== userId], negated *)
Definition isOwnId (v : Value) (userId : option string) : bool :=
  match v, userId with
  | JStr s, Some u => bool_decide (s = u)
  | JNull, None => true
  | _, _ => false
  end.

Definition searchUsers : V unit :=
  let+ v := getView in
  let+ st := liftV getApp in
  if bool_decide (trim (userSearchTerm v) = "") then retV tt
  else
    setIsUserSearching true >>>
    let+ usersRef := liftV (collectionRef ["artifacts"; appId st; "public"; "users"]) in
    let q := query usersRef
               [where_ "displayName_lower" ">=" (JStr (toLowerCase (userSearchTerm v)));
                where_ "displayName_lower" "<="
                  (JStr (toLowerCase (userSearchTerm v) +:+ uF8FF))] in
    let+ snap := liftV (getDoc (ofQuery q)) in
    let+ docs := liftV (snapshot_docs snap) in
    let users :=
      List.filter (λ u, negb (isOwnId (result_id u) (userId st)))
                  (List.map userResultOf docs) in
    setUserSearchResults users >>>
    setIsUserSearching false.

Definition sendFriendRequest (accepted : bool) (now : Timestamp)
    (targetUser : UserResult) : M unit :=
  let* st := getApp in
  let requestPath :=
    ["artifacts"; appId st; "users"; js_String (result_id targetUser); "friendRequests"] in
  let* r := docRef requestPath (userId st) in
  setDoc accepted now r
    [("displayName", JStr (displayName st));
     ("addedAt", JServerTimestamp)].

(** *** What the cards and the feed tab show *)

Definition hyphen : Ascii.ascii := Ascii.ascii_of_nat 45.

(** [MediaCard]: [(item.release_date || 'N/A').split('-')[0]]; a date that
    is neither a string nor falsy has no [split]. *)
Definition releaseYear (release_date : Value) : Outcome string :=
  match js_or release_date (JStr "N/A") with
  | JStr s => Ok (beforeFirst hyphen s)
  | _ => Throw "(item.release_date || 'N/A').split is not a function"
  end.

(** The feed section of [FriendsTab]: the spinner while [isFeedLoading], the
    cards when the feed has entries, and otherwise, unless loading, the
    line that says nothing has been watched. *)
Record FeedSection := {
  showsSpinner : bool;
  cards : list FeedItem;
  showsNothingWatched : bool
}.

Definition feedSection (friendsFeed : list FeedItem) (isFeedLoading : bool) : FeedSection :=
  {| showsSpinner := isFeedLoading;
     cards := if (0 <? length friendsFeed)%nat then friendsFeed else [];
     showsNothingWatched :=
       if (0 <? length friendsFeed)%nat then false else negb isFeedLoading |}.

(** *** When an add reaches the store *)

Definition addSucceeds (answer : Outcome DetailData) (accepted : bool)
    (item : CatalogItem) : bool :=
  match answer with
  | Ok _ => writable item && accepted
  | Throw _ => false
  end.

(** *** Two sessions on one store *)

(** The world as another session finds it: that session's own component
    state, over the store, provider and logs as [e] left them. *)
Definition inSession (st : AppState) (e : Env) : Env :=
  {| app := st; fs := fs e; versions := versions e; authp := authp e;
     calls := calls e; unhandled := unhandled e |}.

(** The entry of [friendRequests] that the recipient's listener makes of the
    request document a sender wrote: [{ id: d.id, ...d.data() }]. *)
Definition requestFrom (sender : AppState) (S : string) : FriendRequest :=
  {| request_id := S; request_displayName := JStr (displayName sender) |}.

(** *** More sample sessions *)

Definition samSession : AppState :=
  {| appId := "watch-tracker"; auth := true; db := true; userId := Some "sam-uid";
     email := "sam@example.com"; password := "battery staple"; displayName := "Sam Roe";
     isLoading := false; error := None; friends := [];
     friendsFeed := []; isFeedLoading := false |}.

Definition annResult : UserResult :=
  {| result_id := JStr "ann-uid";
     result_data := {[ "displayName" := JStr "Ann Lee"; "displayName_lower" := JStr "ann lee" ]} |}.

Definition blankView : ViewState :=
  {| searchTerm := ""; isSearching := false; searchResults := [];
     userSearchTerm := ""; isUserSearching := false; userSearchResults := [];
     watchProviders := None; isProviderModalOpen := false |}.

Definition searchingFor (term : string) : ViewState :=
  {| searchTerm := term; isSearching := false; searchResults := [];
     userSearchTerm := term; isUserSearching := false; userSearchResults := [];
     watchProviders := None; isProviderModalOpen := false |}.

Definition person1399 : CatalogItem :=
  {| ci_id := JNum 1399; ci_media_type := JStr "person"; ci_title := JUndefined;
     ci_name := JStr "Some Actor"; ci_poster_path := JUndefined;
     ci_release_date := JUndefined; ci_first_air_date := JUndefined |}.

Definition netflix : Provider :=
  {| provider_id := JNum 8; provider_name := JStr "Netflix"; logo_path := JStr "/n.jpg" |}.

Definition indiaProviders : RegionProviders :=
  {| link := JStr "https://www.themoviedb.org/movie/1399/watch?locale=IN";
     flatrate := Some [netflix]; rent := None; buy := None |}.

(** * Properties *)

(** Running a handler: unfold the monad and the collaborators' calls. *)
Ltac run_monad :=
  repeat (progress (unfold bind, ret, throw, getApp, modifyApp, logCall, getStore,
                      putStore, getAuth, putAuth, try_catch, try_finally, detached;
                    simpl)).

Ltac run_sdk :=
  repeat (progress (unfold collectionRef, docRef, getDoc, setDoc, deleteDoc, writeBatch,
                      batch_set, batch_delete, batch_commit, fetch_json,
                      setError, setIsLoading, setFriendsFeed, setIsFeedLoading;
                    run_monad)).

(** ** Strings and paths *)

Lemma list_ascii_of_string_app (a b : string) :
  String.list_ascii_of_string (a +:+ b)
  = String.list_ascii_of_string a ++ String.list_ascii_of_string b.
Proof. induction a as [|c a IH]; simpl; [done | by rewrite IH]. Qed.

Lemma string_app_assoc (a b c : string) : (a +:+ b) +:+ c = a +:+ (b +:+ c).
Proof.
  induction a as [|x a IH]; [done |].
  change (String x ((a +:+ b) +:+ c) = String x (a +:+ (b +:+ c))).
  by rewrite IH.
Qed.

(** A friends collection is never a friendRequests collection. *)
Lemma friends_not_requests (a b : string) :
  a +:+ "/friends" ≠ b +:+ "/friendRequests".
Proof.
  intros H.
  change "/friendRequests" with ("/friend" +:+ "Requests") in H.
  rewrite <- string_app_assoc in H.
  apply (f_equal String.list_ascii_of_string) in H.
  rewrite !list_ascii_of_string_app in H.
  apply app_inj_2 in H as [_ H]; [discriminate | reflexivity].
Qed.

Lemma friendsPath_not_requestsPath (appId u v : string) :
  "artifacts/" +:+ appId +:+ "/users/" +:+ u +:+ "/friends"
  ≠ "artifacts/" +:+ appId +:+ "/users/" +:+ v +:+ "/friendRequests".
Proof.
  rewrite <- !(string_app_assoc _ _ "/friends").
  rewrite <- !(string_app_assoc _ _ "/friendRequests").
  apply friends_not_requests.
Qed.

(** ** Display names shorter than three characters *)

(** C5. When the sign-up form is submitted with a display name shorter than
    three characters, whatever the email and password, the handler reports
    the validation message and does nothing else: no call reaches the auth
    provider or the store (so no account, no profile document, no
    uniqueness query), and both are left as they were. *)
Theorem handleSignup_short_displayName (e : Env) (uid : string) (accepted : bool)
    (now : Timestamp) :
  auth (app e) = true →
  db (app e) = true →
  (String.length (displayName (app e)) < 3)%nat →
  let r := handleSignup uid accepted now e in
  r.1 = Ok tt
  ∧ error (app r.2) = Some "Display name must be at least 3 characters."
  ∧ calls r.2 = calls e
  ∧ fs r.2 = fs e
  ∧ versions r.2 = versions e
  ∧ authp r.2 = authp e
  ∧ isLoading (app r.2) = isLoading (app e).
Proof.
  intros Hauth Hdb Hlen. 
  unfold handleSignup, bind, getApp. simpl.
  rewrite Hauth, Hdb. simpl.
  apply Nat.ltb_lt in Hlen. rewrite Hlen.
  simpl. done.
Qed.

Lemma handleSignup_short_displayName_witness :
  let r := handleSignup "new-uid" true noon (world (signupForm "Al") emptyProvider ∅) in
  r.1 = Ok tt
  ∧ error (app r.2) = Some "Display name must be at least 3 characters."
  ∧ calls r.2 = []
  ∧ fs r.2 = ∅
  ∧ versions r.2 = [∅]
  ∧ authp r.2 = emptyProvider
  ∧ isLoading (app r.2) = false.
Proof.
  apply (handleSignup_short_displayName (world (signupForm "Al") emptyProvider ∅));
    [reflexivity | reflexivity | simpl; lia].
Defined.

(** With a display name of three characters or more the handler goes on to
    its uniqueness check, which begins by asking the SDK for the collection
    [artifacts/<appId>/public/users]. That path has four segments, the SDK
    refuses it as a collection, the [catch] reports the refusal, and the
    handler ends there: no query is built or read, the auth provider is
    never asked to create the account and no profile is written. *)
Lemma handleSignup_precheck_rejects (e : Env) (uid : string) (accepted : bool)
    (now : Timestamp) :
  auth (app e) = true →
  db (app e) = true →
  (3 ≤ String.length (displayName (app e)))%nat →
  ∃ e', handleSignup uid accepted now e = (Ok tt, e')
        ∧ error (app e')
          = Some (invalid_collection ["artifacts"; appId (app e); "public"; "users"])
        ∧ isLoading (app e') = false
        ∧ authp e' = authp e
        ∧ fs e' = fs e
        ∧ versions e' = versions e
        ∧ calls e' = calls e.
Proof.
  intros Hauth Hdb Hlen.
  destruct e as [st s vs a cs us]. destruct st. simpl in *. subst.
  unfold handleSignup. run_monad.
  apply Nat.ltb_ge in Hlen. rewrite Hlen.
  run_sdk. eexists. split; [reflexivity |]. done.
Qed.

(** C6. At a valid input: on an empty directory, signing up as "Ann Lee"
    with a fresh email ends at the first line of the uniqueness check. The
    collection path [artifacts/watch-tracker/public/users] has four
    segments and is refused; that refusal is the error shown, and nothing
    was asked of the store or of the auth provider. No account exists
    afterwards, no profile is stored, and logging in with the same
    credentials is refused by the auth provider, so no account id comes out
    of either. *)
Theorem handleSignup_then_handleLogin_valid_input :
  let r := handleSignup "new-uid" true noon (world (signupForm "Ann Lee") emptyProvider ∅) in
  let r' := handleLogin r.2 in
  r.1 = Ok tt
  ∧ error (app r.2)
    = Some ("Invalid collection reference. Collection references must have an odd number "
              +:+ "of segments, but artifacts/watch-tracker/public/users has 4.")
  ∧ isLoading (app r.2) = false
  ∧ accounts (authp r.2) = ∅
  ∧ currentUser (authp r.2) = None
  ∧ fs r.2 = ∅
  ∧ calls r.2 = []
  ∧ error (app r'.2) = Some "Firebase: Error (auth/invalid-credential)."
  ∧ currentUser (authp r'.2) = None
  ∧ calls r'.2 = [CallSignIn "ann@example.com" "correct horse"].
Proof. vm_compute. done. Qed.

(** ** The friends feed *)

(** C3. With no friends the effect publishes the empty feed and returns:
    it makes no call to any collaborator, so no per-friend read is issued,
    and the store is untouched. *)
Theorem friendsFeedEffect_no_friends (e : Env) :
  friends (app e) = [] →
  let r := friendsFeedEffect e in
  r.1 = Ok tt
  ∧ friendsFeed (app r.2) = []
  ∧ calls r.2 = calls e
  ∧ unhandled r.2 = unhandled e
  ∧ fs r.2 = fs e
  ∧ versions r.2 = versions e.
Proof.
  intros Hf. unfold friendsFeedEffect, bind, getApp. simpl.
  rewrite Hf. simpl. done.
Qed.

Lemma friendsFeedEffect_no_friends_witness :
  let r := friendsFeedEffect annWorld in
  r.1 = Ok tt
  ∧ friendsFeed (app r.2) = []
  ∧ calls r.2 = []
  ∧ unhandled r.2 = []
  ∧ fs r.2 = ∅
  ∧ versions r.2 = [∅].
Proof. apply (friendsFeedEffect_no_friends annWorld). reflexivity. Defined.

(** The first read of the loop is refused: [getDoc] is handed a query. *)
Lemma fetchLoop_rejects (friend : Friend) (rest : list Friend) (appId : string)
    (feed : list FeedItem) (e : Env) :
  db (app e) = true →
  ∃ e', fetchLoop (friend :: rest) appId feed e = (Throw invalid_argument, e')
        ∧ app e' = app e ∧ fs e' = fs e ∧ versions e' = versions e
        ∧ unhandled e' = unhandled e
        ∧ calls e' =
            calls e ++
            [CallGetDoc (ofQuery (query
               (collection ("artifacts/" +:+ appId +:+ "/users/" +:+ friend_id friend
                              +:+ "/watchedList"))
               [firestoreOrderBy "addedAt" Desc; limit 5]))].
Proof.
  intros Hdb. eexists. split.
  - simpl. run_sdk. rewrite Hdb. simpl. reflexivity.
  - simpl. done.
Qed.

(** With at least one friend the loader never publishes: the feed keeps its
    previous value, the loading flag stays up, and the refusal is left as
    an unhandled rejection. *)
Lemma friendsFeedEffect_rejects (e : Env) :
  db (app e) = true →
  friends (app e) ≠ [] →
  ∃ e', friendsFeedEffect e = (Ok tt, e')
        ∧ friendsFeed (app e') = friendsFeed (app e)
        ∧ isFeedLoading (app e') = true
        ∧ unhandled e' = unhandled e ++ [invalid_argument]
        ∧ length (calls e') = S (length (calls e))
        ∧ fs e' = fs e
        ∧ versions e' = versions e.
Proof.
  intros Hdb Hf.
  destruct (friends (app e)) as [|friend rest] eqn:Efr; [done |].
  unfold friendsFeedEffect, bind at 1, getApp. simpl. rewrite Efr. simpl.
  unfold bind at 1, setIsFeedLoading, modifyApp. simpl.
  unfold detached, fetchFeeds, bind at 1. simpl. rewrite Efr.
  match goal with |- context [fetchLoop _ _ _ ?e1] =>
    destruct (fetchLoop_rejects friend rest (appId (app e)) [] e1 Hdb)
      as (e' & -> & Happ & Hfs & Hv & Hu & Hc)
  end.
  eexists. split; [reflexivity |]. simpl in *.
  rewrite Happ, Hfs, Hv, Hu, Hc. simpl.
  rewrite length_app. simpl. repeat split; try done. lia.
Qed.

(** C2. At the claim's own scenario, F1 with three watched entries and F2
    with six newer ones, the loader asks [getDoc] for F1's query, is refused, and stops: the feed
    stays empty instead of holding eight entries, the loading flag stays
    up, nothing is read for F2, and the refusal is an unhandled rejection. *)
Theorem friendsFeedEffect_two_friends :
  let r := friendsFeedEffect twoFriendsWorld in
  r.1 = Ok tt
  ∧ friendsFeed (app r.2) = []
  ∧ isFeedLoading (app r.2) = true
  ∧ unhandled r.2 = [invalid_argument]
  ∧ calls r.2 =
      [CallGetDoc (ofQuery (query (collection "artifacts/watch-tracker/users/f1/watchedList")
                              [firestoreOrderBy "addedAt" Desc; limit 5]))].
Proof. vm_compute. done. Qed.

(** ** [Array.prototype.sort] with a comparator [key b - key a] *)

Section SortByKeyDescending.
Context {A : Type} (key : A → Z) (cmp : A → A → Z).
Hypothesis cmp_key : ∀ a b, cmp a b = key b - key a.

Local Abbreviation newestFirst := (λ a b : A, key b ≤ key a).

Lemma js_sort_insert_Permutation (x : A) (l : list A) :
  js_sort_insert cmp x l ≡ₚ x :: l.
Proof.
  induction l as [|y l IH]; simpl; [done |].
  destruct (cmp x y <=? 0); [done |].
  rewrite IH. apply Permutation_swap.
Qed.

Lemma js_sort_Permutation (l : list A) : js_sort cmp l ≡ₚ l.
Proof.
  induction l as [|x l IH]; simpl; [done |].
  by rewrite js_sort_insert_Permutation, IH.
Qed.

Lemma js_sort_insert_sorted (x : A) (l : list A) :
  StronglySorted newestFirst l → StronglySorted newestFirst (js_sort_insert cmp x l).
Proof.
  induction 1 as [|y l Hl IH Hy]; simpl.
  - repeat constructor.
  - destruct (Z.leb_spec (cmp x y) 0) as [Hle | Hgt]; rewrite cmp_key in *.
    + constructor; [by constructor |].
      constructor; [lia |].
      eapply Forall_impl; [exact Hy |]. simpl. intros z ?. lia.
    + constructor; [done |].
      rewrite js_sort_insert_Permutation. constructor; [lia | done].
Qed.

Lemma js_sort_sorted (l : list A) : StronglySorted newestFirst (js_sort cmp l).
Proof.
  induction l as [|x l IH]; simpl; [constructor |].
  by apply js_sort_insert_sorted.
Qed.

(** Stability: entries with one key keep the order they had. *)
Lemma js_sort_insert_stable (k : Z) (x : A) (l : list A) :
  StronglySorted newestFirst l →
  filter (λ a, key a = k) (js_sort_insert cmp x l)
  = filter (λ a, key a = k) (x :: l).
Proof.
  induction 1 as [|y l Hl IH Hy]; simpl; [done |].
  destruct (Z.leb_spec (cmp x y) 0) as [Hle | Hgt]; [done |].
  rewrite cmp_key in *.
  rewrite !filter_cons in *.
  rewrite IH.
  destruct (decide (key x = k)) as [Hx | Hx];
    destruct (decide (key y = k)) as [Hy' | Hy']; try done.
  lia.
Qed.

Lemma js_sort_stable (k : Z) (l : list A) :
  filter (λ a, key a = k) (js_sort cmp l) = filter (λ a, key a = k) l.
Proof.
  induction l as [|x l IH]; simpl; [done |].
  rewrite js_sort_insert_stable by apply js_sort_sorted.
  by rewrite !filter_cons, IH.
Qed.
End SortByKeyDescending.

(** ** Friend requests *)

Lemma handleFriendRequest_accept_run (e : Env) (accepted : bool) (now : Timestamp)
    (request : FriendRequest) (A : string) :
  db (app e) = true →
  userId (app e) = Some A →
  let friendsOf u := "artifacts/" +:+ appId (app e) +:+ "/users/" +:+ u +:+ "/friends" in
  let requestsOf u := "artifacts/" +:+ appId (app e) +:+ "/users/" +:+ u +:+ "/friendRequests" in
  let batch :=
    [WSet (friendsOf A) (request_id request) [("displayName", request_displayName request)];
     WSet (friendsOf (request_id request)) A [("displayName", JStr (displayName (app e)))];
     WDelete (requestsOf A) (request_id request)] in
  handleFriendRequest accepted now request "accept" e =
    if negb (validFields [("displayName", request_displayName request)]) then
      (Throw unsupported_undefined, e)
    else if accepted then
      (Ok tt, {| app := app e; fs := applyWrites now (fs e) batch;
                 versions := versions e ++ [applyWrites now (fs e) batch];
                 authp := authp e; calls := calls e ++ [CallCommit batch];
                 unhandled := unhandled e |})
    else
      (Throw write_rejected,
       {| app := app e; fs := fs e; versions := versions e; authp := authp e;
          calls := calls e ++ [CallCommit batch]; unhandled := unhandled e |}).
Proof.
  intros Hdb HA. destruct e as [st s vs a cs us]. destruct st. simpl in *. subst.
  unfold handleFriendRequest. run_sdk.
  destruct (bool_decide _); simpl; [done |].
  by destruct accepted.
Qed.

(** C1. Accepting a request builds the three writes in one local batch and
    hands them to the store in a single commit. Whatever the store answers,
    the handler either resolves with both friend documents written and the
    request deleted, or rejects with the store exactly as it was; and the
    store has been in no state in between: its history gains the fully
    applied state or nothing. *)
Theorem acceptRequest_atomic (e : Env) (accepted : bool) (now : Timestamp)
    (request : FriendRequest) (A : string) :
  db (app e) = true →
  userId (app e) = Some A →
  let S := request_id request in
  let friendsOf u := "artifacts/" +:+ appId (app e) +:+ "/users/" +:+ u +:+ "/friends" in
  let requestsOf u := "artifacts/" +:+ appId (app e) +:+ "/users/" +:+ u +:+ "/friendRequests" in
  let own := (friendsOf A, S) in
  let their := (friendsOf S, A) in
  let req := (requestsOf A, S) in
  let applied :=
    delete req
      (<[their := toDocData now [("displayName", JStr (displayName (app e)))]]>
         (<[own := toDocData now [("displayName", request_displayName request)]]> (fs e))) in
  let r := handleFriendRequest accepted now request "accept" e in
  ((r.1 = Ok tt ∧ fs r.2 = applied ∧ versions r.2 = versions e ++ [applied])
   ∨ (∃ msg, r.1 = Throw msg ∧ fs r.2 = fs e ∧ versions r.2 = versions e))
  ∧ is_Some (applied !! own)
  ∧ (S ≠ A →
     applied !! own = Some (toDocData now [("displayName", request_displayName request)]))
  ∧ applied !! their = Some (toDocData now [("displayName", JStr (displayName (app e)))])
  ∧ applied !! req = None
  ∧ (∀ k, k ≠ own → k ≠ their → k ≠ req → applied !! k = fs e !! k).
Proof.
  intros Hdb HA S friendsOf requestsOf own their req applied r.
  assert (Hown : own ≠ req).
  { intros H. apply (f_equal fst) in H. by apply friendsPath_not_requestsPath in H. }
  assert (Htheir : their ≠ req).
  { intros H. apply (f_equal fst) in H. by apply friendsPath_not_requestsPath in H. }
  split; [| split; [| split; [| split; [| split]]]].
  - subst r. rewrite (handleFriendRequest_accept_run e accepted now request A Hdb HA).
    destruct (negb (validFields _)); simpl; [right; eauto |].
    destruct accepted; simpl; [left; done | right; eauto].
  - subst applied. rewrite lookup_delete_ne by done.
    destruct (decide (their = own)) as [-> | Hne].
    + rewrite lookup_insert_eq. eauto.
    + rewrite lookup_insert_ne, lookup_insert_eq by done. eauto.
  - intros HSA. subst applied.
    rewrite lookup_delete_ne, lookup_insert_ne, lookup_insert_eq; try done.
    intros H. apply (f_equal snd) in H. simpl in H. congruence.
  - subst applied. by rewrite lookup_delete_ne, lookup_insert_eq.
  - subst applied. apply lookup_delete_eq.
  - intros k Hk1 Hk2 Hk3. subst applied.
    by rewrite lookup_delete_ne, !lookup_insert_ne.
Qed.

Lemma acceptRequest_atomic_witness :
  let own := ("artifacts/watch-tracker/users/ann-uid/friends", "sam-uid") in
  let their := ("artifacts/watch-tracker/users/sam-uid/friends", "ann-uid") in
  let req := ("artifacts/watch-tracker/users/ann-uid/friendRequests", "sam-uid") in
  let r := handleFriendRequest true noon samRequest "accept" pendingWorld in
  is_Some (fs pendingWorld !! req)
  ∧ r.1 = Ok tt
  ∧ fs r.2 !! own = Some {[ "displayName" := JStr "Sam Roe" ]}
  ∧ fs r.2 !! their = Some {[ "displayName" := JStr "Ann Lee" ]}
  ∧ fs r.2 !! req = None
  ∧ length (versions r.2) = 2%nat.
Proof.
  pose proof (acceptRequest_atomic pendingWorld true noon samRequest "ann-uid"
                eq_refl eq_refl) as (Hrun & _ & Hown & Htheir & Hreq & _).
  cbv zeta in *.
  destruct Hrun as [(Hok & Hfs & Hv) | (msg & Hthrow & _)];
    [| vm_compute in Hthrow; discriminate Hthrow].
  split; [vm_compute; eauto |].
  split; [exact Hok |].
  rewrite Hfs, Hv.
  split; [apply Hown; discriminate |].
  split; [exact Htheir |].
  split; [exact Hreq | reflexivity].
Defined.

Lemma handleFriendRequest_decline_run (e : Env) (accepted : bool) (now : Timestamp)
    (request : FriendRequest) (action A : string) :
  action ≠ "accept" →
  db (app e) = true →
  userId (app e) = Some A →
  let req := doc ("artifacts/" +:+ appId (app e) +:+ "/users/" +:+ A +:+ "/friendRequests")
                 (request_id request) in
  handleFriendRequest accepted now request action e =
    if accepted then
      (Ok tt, {| app := app e;
                 fs := delete ("artifacts/" +:+ appId (app e) +:+ "/users/" +:+ A +:+ "/friendRequests",
                               request_id request) (fs e);
                 versions := versions e ++
                   [delete ("artifacts/" +:+ appId (app e) +:+ "/users/" +:+ A +:+ "/friendRequests",
                            request_id request) (fs e)];
                 authp := authp e; calls := calls e ++ [CallDeleteDoc req];
                 unhandled := unhandled e |})
    else
      (Throw write_rejected,
       {| app := app e; fs := fs e; versions := versions e; authp := authp e;
          calls := calls e ++ [CallDeleteDoc req]; unhandled := unhandled e |}).
Proof.
  intros Hact Hdb HA. destruct e as [st s vs a cs us]. destruct st. simpl in *. subst.
  unfold handleFriendRequest. rewrite bool_decide_eq_false_2 by done.
  run_sdk. by destruct accepted.
Qed.

(** C8. Declining a request sends one delete, of the request document, and
    nothing else: the store afterwards is the store before without that
    document (or unchanged, when the store refuses), every other document
    reads as before, no document is created, and in particular both
    parties' friends collections are as they were. The component's own state and
    the auth provider are untouched. *)
Theorem declineRequest_deletes_only_request (e : Env) (accepted : bool) (now : Timestamp)
    (request : FriendRequest) (action A : string) :
  action ≠ "accept" →
  db (app e) = true →
  userId (app e) = Some A →
  let friendsOf u := "artifacts/" +:+ appId (app e) +:+ "/users/" +:+ u +:+ "/friends" in
  let req := ("artifacts/" +:+ appId (app e) +:+ "/users/" +:+ A +:+ "/friendRequests",
              request_id request) in
  let r := handleFriendRequest accepted now request action e in
  ((r.1 = Ok tt ∧ fs r.2 = delete req (fs e))
   ∨ (∃ msg, r.1 = Throw msg ∧ fs r.2 = fs e))
  ∧ calls r.2 = calls e ++ [CallDeleteDoc (doc req.1 req.2)]
  ∧ (∀ k, k ≠ req → fs r.2 !! k = fs e !! k)
  ∧ (∀ k, is_Some (fs r.2 !! k) → is_Some (fs e !! k))
  ∧ (∀ u id, fs r.2 !! (friendsOf u, id) = fs e !! (friendsOf u, id))
  ∧ app r.2 = app e
  ∧ authp r.2 = authp e.
Proof.
  intros Hact Hdb HA friendsOf req r. subst r.
  rewrite (handleFriendRequest_decline_run e accepted now request action A Hact Hdb HA).
  assert (Hfr : ∀ u id, (friendsOf u, id) ≠ req).
  { intros u id H. apply (f_equal fst) in H. by apply friendsPath_not_requestsPath in H. }
  destruct accepted; simpl.
  - split; [left; done |]. split; [done |]. split; [| split; [| split]].
    + intros k Hk. by rewrite lookup_delete_ne.
    + intros k. rewrite lookup_delete. case_decide; [by intros [? [=]] | done].
    + intros u id. by rewrite lookup_delete_ne.
    + done.
  - split; [right; eauto |]. done.
Qed.

Lemma declineRequest_deletes_only_request_witness :
  let req := ("artifacts/watch-tracker/users/ann-uid/friendRequests", "sam-uid") in
  let r := handleFriendRequest true noon samRequest "decline" pendingWorld in
  is_Some (fs pendingWorld !! req)
  ∧ r.1 = Ok tt
  ∧ fs r.2 = delete req pendingStore
  ∧ fs r.2 !! ("artifacts/watch-tracker/users/ann-uid/friends", "sam-uid") = None
  ∧ fs r.2 !! ("artifacts/watch-tracker/users/sam-uid/friends", "ann-uid") = None.
Proof.
  pose proof (declineRequest_deletes_only_request pendingWorld true noon samRequest
                "decline" "ann-uid" ltac:(discriminate) eq_refl eq_refl)
    as (Hrun & _ & _ & _ & Hfriends & _).
  cbv zeta in *.
  destruct Hrun as [(Hok & Hfs) | (msg & Hthrow & _)];
    [| vm_compute in Hthrow; discriminate Hthrow].
  split; [vm_compute; eauto |].
  split; [exact Hok |].
  split; [exact Hfs |].
  split; (etrans; [| reflexivity]);
    [exact (Hfriends "ann-uid" "sam-uid") | exact (Hfriends "sam-uid" "ann-uid")].
Defined.

(** ** The lists *)

Lemma js_or_defined (a b : Value) : b ≠ JUndefined → js_or a b ≠ JUndefined.
Proof. unfold js_or. destruct a; simpl; try done. all: case_match; done. Qed.

(** An add that gets its catalog answer and is taken by the store writes
    one document, under [String(item.id)] in the chosen list. *)
Lemma addToList_run (e : Env) (u : string) (d : DetailData) (now : Timestamp)
    (item : CatalogItem) (listType : string) :
  db (app e) = true →
  userId (app e) = Some u →
  u ≠ "" →
  writable item = true →
  let listPath :=
    if bool_decide (listType = "watched")
    then "artifacts/" +:+ appId (app e) +:+ "/users/" +:+ u +:+ "/watchedList"
    else "artifacts/" +:+ appId (app e) +:+ "/users/" +:+ u +:+ "/wishlist" in
  ∃ entry e',
    addToList (Ok d) true now item listType e = (Ok tt, e')
    ∧ fs e' = <[(listPath, js_String (ci_id item)) := entry]> (fs e)
    ∧ entry !! "addedAt" = Some (JTime now)
    ∧ entry !! "media_type" = Some (resolveValue now (ci_media_type item))
    ∧ app e' = app e.
Proof.
  intros Hdb Hu Hne Hw listPath. subst listPath.
  destruct e as [st s vs a cs us]. destruct st. simpl in *. subst.
  unfold writable, validFields in Hw. simpl in Hw.
  unfold addToList.
  destruct (bool_decide (listType = "watched")); run_sdk.
  all: rewrite bool_decide_eq_false_2 by done; simpl; run_sdk.
  all: match goal with |- context [js_or (js_or ?a ?b) (JNum 0)] =>
         assert (Hrt : js_or (js_or a b) (JNum 0) ≠ JUndefined) by (by apply js_or_defined)
       end.
  all: rewrite (bool_decide_eq_false_2 _ Hrt); rewrite !andb_true_r in *.
  all: rewrite Hw; simpl.
  all: eexists _, _; (split; [reflexivity |]); simpl.
  all: split; [reflexivity |].
  all: unfold toDocData; simpl.
  all: split; [apply lookup_insert_eq |].
  all: split; [| done].
  all: rewrite !lookup_insert_ne by done; apply lookup_insert_eq.
Qed.

Lemma documentsOf_lookup (s : Firestore) (path id : string) :
  documentsOf s path !! (path, id) = s !! (path, id).
Proof.
  unfold documentsOf. rewrite map_lookup_filter.
  destruct (s !! (path, id)) as [d|]; simpl; [| done].
  by rewrite option_guard_True.
Qed.

Lemma documentsOf_insert (s : Firestore) (path id : string) (d : DocData) :
  documentsOf (<[(path, id) := d]> s) path = <[(path, id) := d]> (documentsOf s path).
Proof. unfold documentsOf. by rewrite map_filter_insert_True. Qed.

(** Writing over a document that exists leaves the size of its collection. *)
Lemma documentsOf_overwrite_size (s : Firestore) (path id : string) (d : DocData) :
  is_Some (s !! (path, id)) →
  size (documentsOf (<[(path, id) := d]> s) path) = size (documentsOf s path).
Proof.
  intros H. rewrite documentsOf_insert.
  apply map_size_insert_Some. by rewrite documentsOf_lookup.
Qed.








(** ** Removing an entry *)

Lemma removeFromList_run (e : Env) (u : string) (accepted : bool) (itemId : Value)
    (listType : string) :
  db (app e) = true →
  userId (app e) = Some u →
  u ≠ "" →
  let listPath :=
    if bool_decide (listType = "watched")
    then "artifacts/" +:+ appId (app e) +:+ "/users/" +:+ u +:+ "/watchedList"
    else "artifacts/" +:+ appId (app e) +:+ "/users/" +:+ u +:+ "/wishlist" in
  let key := (listPath, js_String itemId) in
  removeFromList accepted itemId listType e =
    (Ok tt,
     {| app := app e;
        fs := if accepted then delete key (fs e) else fs e;
        versions := if accepted then versions e ++ [delete key (fs e)] else versions e;
        authp := authp e;
        calls := calls e ++ [CallDeleteDoc (doc listPath (js_String itemId))];
        unhandled := if accepted then unhandled e else unhandled e ++ [write_rejected] |}).
Proof.
  intros Hdb Hu Hne listPath key. subst key listPath.
  destruct e as [st s vs a cs us]. destruct st. simpl in *. subst.
  unfold removeFromList.
  destruct (bool_decide (listType = "watched")); run_sdk.
  all: rewrite bool_decide_eq_false_2 by done; simpl.
  all: run_sdk; by destruct accepted.
Qed.

(** C9. Removing an entry sends the delete straight away, without looking
    whether the entry exists, and returns normally. When the list has no
    entry under that id the store is left as it was, and a delete the store
    takes raises nothing. Removing a second time changes nothing more. *)
Theorem removeFromList_idempotent (e : Env) (u : string) (accepted accepted' : bool)
    (itemId : Value) (listType : string) :
  db (app e) = true →
  userId (app e) = Some u →
  u ≠ "" →
  let listPath :=
    if bool_decide (listType = "watched")
    then "artifacts/" +:+ appId (app e) +:+ "/users/" +:+ u +:+ "/watchedList"
    else "artifacts/" +:+ appId (app e) +:+ "/users/" +:+ u +:+ "/wishlist" in
  let key := (listPath, js_String itemId) in
  let r := removeFromList accepted itemId listType e in
  let r' := removeFromList accepted' itemId listType r.2 in
  r.1 = Ok tt
  ∧ app r.2 = app e
  ∧ calls r.2 = calls e ++ [CallDeleteDoc (doc listPath (js_String itemId))]
  ∧ (fs e !! key = None → fs r.2 = fs e)
  ∧ (accepted = true →
       fs r.2 = delete key (fs e)
       ∧ unhandled r.2 = unhandled e
       ∧ r'.1 = Ok tt
       ∧ fs r'.2 = fs r.2).
Proof.
  intros Hdb Hu Hne listPath key r r'.
  pose proof (removeFromList_run e u accepted itemId listType Hdb Hu Hne) as Hr.
  simpl in Hr. fold listPath key in Hr. fold r in Hr.
  assert (Hdb1 : db (app r.2) = true) by (by rewrite Hr).
  assert (Hu1 : userId (app r.2) = Some u) by (by rewrite Hr).
  pose proof (removeFromList_run r.2 u accepted' itemId listType Hdb1 Hu1 Hne) as Hr'.
  simpl in Hr'. fold r' in Hr'.
  assert (Happ : app r.2 = app e) by (by rewrite Hr).
  rewrite Happ in Hr'. fold listPath key in Hr'.
  rewrite Hr'. rewrite Hr. simpl.
  split; [done |]. split; [done |]. split; [done |]. split.
  - intros Hnone. destruct accepted; [by apply delete_id | done].
  - intros ->. split; [done |]. split; [done |]. split; [done |].
    destruct accepted'; [apply delete_delete_eq | done].
Qed.

Lemma removeFromList_idempotent_witness :
  let key := ("artifacts/watch-tracker/users/ann-uid/watchedList", "1399") in
  let r := removeFromList true (JStr "1399") "watched" annWorld in
  let r' := removeFromList true (JStr "1399") "watched" r.2 in
  fs annWorld !! key = None
  ∧ r.1 = Ok tt
  ∧ fs r.2 = fs annWorld
  ∧ unhandled r.2 = []
  ∧ r'.1 = Ok tt
  ∧ fs r'.2 = fs r.2.
Proof.
  pose proof (removeFromList_idempotent annWorld "ann-uid" true true (JStr "1399") "watched"
                eq_refl eq_refl ltac:(discriminate))
    as (Hok & _ & _ & Habsent & Htwice).
  cbv zeta in *.
  destruct (Htwice eq_refl) as (_ & Hun & Hok' & Hfs').
  split; [reflexivity |].
  split; [exact Hok |].
  split; [apply Habsent; reflexivity |].
  split; [exact Hun |].
  split; [exact Hok' | exact Hfs'].
Defined.

(** ** Sorting the feed *)

Lemma feedCompare_key (a b : FeedItem) : feedCompare a b = feedKey b - feedKey a.
Proof. done. Qed.

(** C4, as worded, fails: the comparator reads only the
    whole seconds of [addedAt], so two entries stamped within one second
    stay in the order they were fetched in, here the older one first. *)
Lemma sortFeed_same_second_not_by_addedAt :
  sortFeed sameSecondFeed = sameSecondFeed
  ∧ ¬ sortedByAddedAtDescending (sortFeed sameSecondFeed).
Proof.
  assert (H : sortFeed sameSecondFeed = sameSecondFeed) by (vm_compute; reflexivity).
  split; [exact H |]. rewrite H. unfold sortedByAddedAtDescending, sameSecondFeed.
  intros Hs. apply StronglySorted_cons in Hs as [Hs _].
  apply Forall_cons in Hs as [Hs _].
  vm_compute in Hs. destruct Hs as [Hs | [_ Hs]]; [discriminate Hs | by apply Hs].
Qed.

(** C4, amended. The feed handed to [setFriendsFeed] is the fetched sequence reordered by
    the whole seconds of [addedAt], largest first, where an entry without a
    timestamp has key 0: it holds the same entries, the keys never increase
    along it, entries with equal keys keep their fetched order, and an entry
    without [addedAt] comes after every entry whose seconds are positive. *)
Theorem sortFeed_sorted_by_seconds (feed : list FeedItem) :
  sortFeed feed ≡ₚ feed
  ∧ StronglySorted (λ a b, feedKey b ≤ feedKey a) (sortFeed feed)
  ∧ (∀ k, filter (λ a, feedKey a = k) (sortFeed feed) = filter (λ a, feedKey a = k) feed)
  ∧ (∀ a, item_data a !! "addedAt" = None → feedKey a = 0)
  ∧ (∀ i j a b,
       sortFeed feed !! i = Some a →
       sortFeed feed !! j = Some b →
       item_data a !! "addedAt" = None →
       0 < feedKey b →
       (j < i)%nat).
Proof.
  assert (Hsorted := js_sort_sorted feedKey feedCompare feedCompare_key feed).
  assert (Hmissing : ∀ a, item_data a !! "addedAt" = None → feedKey a = 0).
  { intros a Ha. unfold feedKey, item_addedAt. by rewrite Ha. }
  split; [apply js_sort_Permutation |].
  split; [exact Hsorted |].
  split; [intros k; apply (js_sort_stable feedKey feedCompare feedCompare_key) |].
  split; [exact Hmissing |].
  intros i j a b Hi Hj Ha Hb.
  apply Hmissing in Ha.
  destruct (Nat.lt_trichotomy j i) as [Hlt | [-> | Hgt]]; [done | |].
  - rewrite Hi in Hj. injection Hj as ->. lia.
  - exfalso. fold (sortFeed feed) in Hsorted.
    apply lookup_lt_Some in Hj as Hjlen.
    rewrite <- (take_drop_middle _ _ _ Hj) in Hsorted, Hi.
    rewrite lookup_app_l in Hi by (rewrite length_take; lia).
    apply StronglySorted_app in Hsorted as (Hall & _ & _).
    apply list_elem_of_lookup_2 in Hi.
    specialize (Hall a b Hi ltac:(by left)). simpl in Hall. lia.
Qed.

Lemma sortFeed_sorted_by_seconds_witness :
  sortFeed [undatedItem; datedItem] !! 1%nat = Some undatedItem
  ∧ sortFeed [undatedItem; datedItem] !! 0%nat = Some datedItem
  ∧ (0 < 1)%nat.
Proof.
  destruct (sortFeed_sorted_by_seconds [undatedItem; datedItem]) as (_ & _ & _ & _ & Hafter).
  split; [reflexivity |]. split; [reflexivity |].
  apply (Hafter 1%nat 0%nat undatedItem datedItem);
    [reflexivity | reflexivity | reflexivity | reflexivity].
Defined.

(** * More properties *)

Ltac run_view :=
  repeat (progress (unfold bindV, retV, throwV, liftV, getView, modifyView, try_catchV,
                      try_finallyV, setIsSearching, setSearchResults, setIsUserSearching,
                      setUserSearchResults, setWatchProviders, setIsProviderModalOpen,
                      fetch_search, fetch_providers, snapshot_docs;
                    run_sdk)).

(** ** Logging in *)

(** X1. Logging in with the email and password of a registered account
    signs that account in: the provider's current user is the account's id,
    no error is shown, the loading flag is down again, and neither the
    account table nor the store has changed. *)
Theorem handleLogin_signs_in (e : Env) (uid : string) :
  auth (app e) = true →
  accounts (authp e) !! email (app e) = Some (password (app e), uid) →
  let r := handleLogin e in
  r.1 = Ok tt
  ∧ currentUser (authp r.2) = Some uid
  ∧ accounts (authp r.2) = accounts (authp e)
  ∧ error (app r.2) = None
  ∧ isLoading (app r.2) = false
  ∧ fs r.2 = fs e
  ∧ calls r.2 = calls e ++ [CallSignIn (email (app e)) (password (app e))].
Proof.
  intros Hauth Hacc.
  destruct e as [st s vs a cs us]. destruct st. simpl in *. subst.
  unfold handleLogin, signInWithEmailAndPassword. run_monad.
  rewrite Hacc. simpl. rewrite bool_decide_eq_true_2 by done. by run_sdk.
Qed.

Lemma handleLogin_signs_in_witness :
  let r := handleLogin (world (signupForm "Ann Lee") annProvider ∅) in
  r.1 = Ok tt
  ∧ currentUser (authp r.2) = Some "ann-uid"
  ∧ accounts (authp r.2) = accounts annProvider
  ∧ error (app r.2) = None
  ∧ isLoading (app r.2) = false
  ∧ fs r.2 = ∅
  ∧ calls r.2 = [CallSignIn "ann@example.com" "correct horse"].
Proof.
  apply (handleLogin_signs_in (world (signupForm "Ann Lee") annProvider ∅) "ann-uid");
    reflexivity.
Defined.

(** X2. Logging in with an email the provider does not know, or with a
    password other than the account's, signs nobody in: the provider is
    exactly as before, the provider's refusal is shown as the error, and the
    loading flag is down again. *)
Theorem handleLogin_refused (e : Env) :
  auth (app e) = true →
  (∀ uid, accounts (authp e) !! email (app e) ≠ Some (password (app e), uid)) →
  let r := handleLogin e in
  r.1 = Ok tt
  ∧ authp r.2 = authp e
  ∧ error (app r.2) = Some "Firebase: Error (auth/invalid-credential)."
  ∧ isLoading (app r.2) = false
  ∧ fs r.2 = fs e.
Proof.
  intros Hauth Hacc.
  destruct e as [st s vs a cs us]. destruct st. simpl in *. subst.
  unfold handleLogin, signInWithEmailAndPassword. run_monad.
  destruct (accounts a !! email0) as [[pw uid]|] eqn:E; simpl.
  - destruct (decide (pw = password0)) as [-> | Hne].
    + by destruct (Hacc uid).
    + rewrite bool_decide_eq_false_2 by done. by run_sdk.
  - done.
Qed.

Lemma handleLogin_refused_witness :
  let r := handleLogin (world (signupForm "Ann Lee") emptyProvider ∅) in
  r.1 = Ok tt
  ∧ authp r.2 = emptyProvider
  ∧ error (app r.2) = Some "Firebase: Error (auth/invalid-credential)."
  ∧ isLoading (app r.2) = false
  ∧ fs r.2 = ∅.
Proof.
  apply (handleLogin_refused (world (signupForm "Ann Lee") emptyProvider ∅));
    [reflexivity | intros uid; discriminate].
Defined.

(** ** Adding to a list, continued *)

Lemma wishlist_not_watchedList (a b : string) :
  a +:+ "/watchedList" ≠ b +:+ "/wishlist".
Proof.
  intros H.
  change "/watchedList" with ("/wa" +:+ "tchedList") in H.
  rewrite <- string_app_assoc in H.
  apply (f_equal String.list_ascii_of_string) in H.
  rewrite !list_ascii_of_string_app in H.
  apply app_inj_2 in H as [_ H]; [discriminate | reflexivity].
Qed.

Lemma watchedPath_not_wishlistPath (appId u v : string) :
  "artifacts/" +:+ appId +:+ "/users/" +:+ u +:+ "/watchedList"
  ≠ "artifacts/" +:+ appId +:+ "/users/" +:+ v +:+ "/wishlist".
Proof.
  rewrite <- !(string_app_assoc _ _ "/watchedList").
  rewrite <- !(string_app_assoc _ _ "/wishlist").
  apply wishlist_not_watchedList.
Qed.

(** What [addToList] does in a signed-in session, for every answer of the
    catalog and of the store. *)
Lemma addToList_outcome (e : Env) (u : string) (answer : Outcome DetailData)
    (accepted : bool) (now : Timestamp) (item : CatalogItem) (listType : string) :
  db (app e) = true →
  userId (app e) = Some u →
  u ≠ "" →
  let listPath :=
    if bool_decide (listType = "watched")
    then "artifacts/" +:+ appId (app e) +:+ "/users/" +:+ u +:+ "/watchedList"
    else "artifacts/" +:+ appId (app e) +:+ "/users/" +:+ u +:+ "/wishlist" in
  ∃ e', addToList answer accepted now item listType e = (Ok tt, e')
        ∧ authp e' = authp e
        ∧ unhandled e' = unhandled e
        ∧ if addSucceeds answer accepted item then
            (∃ entry, fs e' = <[(listPath, js_String (ci_id item)) := entry]> (fs e)
                      ∧ versions e' = versions e ++ [fs e'])
            ∧ app e' = app e
          else
            fs e' = fs e
            ∧ versions e' = versions e
            ∧ error (app e') = Some ("Could not add to " +:+ listType +:+ " list.").
Proof.
  intros Hdb Hu Hne listPath. subst listPath.
  destruct e as [st s vs a cs us]. destruct st. simpl in *. subst.
  unfold addToList, addSucceeds.
  destruct (bool_decide (listType = "watched")); run_sdk.
  all: rewrite bool_decide_eq_false_2 by done; simpl.
  all: destruct answer as [d | msg]; run_sdk.
  all: try (match goal with |- context [js_or (js_or ?a ?b) (JNum 0)] =>
              assert (Hrt : js_or (js_or a b) (JNum 0) ≠ JUndefined)
                by (by apply js_or_defined)
            end;
            rewrite (bool_decide_eq_false_2 _ Hrt);
            unfold writable, validFields; simpl; rewrite !andb_true_r;
            match goal with |- context [negb (?w)] => destruct w eqn:Hw end; simpl;
            [destruct accepted; simpl |]).
  all: eexists; (split; [reflexivity |]); simpl; first [done | eauto 10].
Qed.

(** X4. An add that does not go through (the catalog lookup fails, the
    entry has an undefined field, or the store refuses the write) is caught
    inside the handler: it returns normally, shows "Could not add to
    <listType> list." and leaves the store and its history as they were. *)
Theorem addToList_failure_changes_nothing (e : Env) (u : string)
    (answer : Outcome DetailData) (accepted : bool) (now : Timestamp)
    (item : CatalogItem) (listType : string) :
  db (app e) = true →
  userId (app e) = Some u →
  u ≠ "" →
  addSucceeds answer accepted item = false →
  let r := addToList answer accepted now item listType e in
  r.1 = Ok tt
  ∧ error (app r.2) = Some ("Could not add to " +:+ listType +:+ " list.")
  ∧ fs r.2 = fs e
  ∧ versions r.2 = versions e
  ∧ authp r.2 = authp e
  ∧ unhandled r.2 = unhandled e.
Proof.
  intros Hdb Hu Hne Hfail r.
  destruct (addToList_outcome e u answer accepted now item listType Hdb Hu Hne)
    as (e' & Hrun & Hauth & Hun & Hcase).
  subst r. rewrite Hrun. rewrite Hfail in Hcase. simpl.
  destruct Hcase as (Hfs & Hv & Herr). done.
Qed.

Lemma addToList_failure_changes_nothing_witness :
  let r := addToList (Throw "Failed to fetch") true noon movie1399 "wishlist" annWorld in
  r.1 = Ok tt
  ∧ error (app r.2) = Some ("Could not add to " +:+ "wishlist" +:+ " list.")
  ∧ fs r.2 = ∅
  ∧ versions r.2 = [∅]
  ∧ authp r.2 = annProvider
  ∧ unhandled r.2 = [].
Proof.
  apply (addToList_failure_changes_nothing annWorld "ann-uid" (Throw "Failed to fetch") true
           noon movie1399 "wishlist");
    [reflexivity | reflexivity | discriminate | reflexivity].
Defined.

(** X5. Signed out (no [db] handle, or [userId] null or empty) the two list
    handlers return at their guard: nothing is fetched, written or deleted,
    and no error is set. *)
Theorem list_handlers_need_session (e : Env) (answer : Outcome DetailData)
    (accepted : bool) (now : Timestamp) (item : CatalogItem) (itemId : Value)
    (listType : string) :
  db (app e) = false ∨ js_not (userId (app e)) = true →
  addToList answer accepted now item listType e = (Ok tt, e)
  ∧ removeFromList accepted itemId listType e = (Ok tt, e).
Proof.
  intros H. unfold addToList, removeFromList. run_monad.
  destruct H as [-> | H]; [done |]. rewrite H. by rewrite orb_true_r.
Qed.

Lemma list_handlers_need_session_witness :
  let e := world (signupForm "Ann Lee") emptyProvider ∅ in
  addToList (Ok movieDetail) true noon movie1399 "watched" e = (Ok tt, e)
  ∧ removeFromList true (JNum 1399) "watched" e = (Ok tt, e).
Proof.
  apply (list_handlers_need_session (world (signupForm "Ann Lee") emptyProvider ∅)).
  right. reflexivity.
Defined.

(** X6. An add touches one document at most, the one named by the list
    and [String(item.id)]: whatever the catalog and the store answer, every
    other document reads as before. In particular an add to the watched list
    leaves every wishlist as it was, and an add to the wishlist every
    watched list. *)
Theorem addToList_touches_one_document (e : Env) (u : string)
    (answer : Outcome DetailData) (accepted : bool) (now : Timestamp)
    (item : CatalogItem) (listType : string) :
  db (app e) = true →
  userId (app e) = Some u →
  u ≠ "" →
  let watchedOf v := "artifacts/" +:+ appId (app e) +:+ "/users/" +:+ v +:+ "/watchedList" in
  let wishlistOf v := "artifacts/" +:+ appId (app e) +:+ "/users/" +:+ v +:+ "/wishlist" in
  let listPath := if bool_decide (listType = "watched") then watchedOf u else wishlistOf u in
  let r := addToList answer accepted now item listType e in
  (∀ k, k ≠ (listPath, js_String (ci_id item)) → fs r.2 !! k = fs e !! k)
  ∧ (listType = "watched" →
     ∀ v id, fs r.2 !! (wishlistOf v, id) = fs e !! (wishlistOf v, id))
  ∧ (listType ≠ "watched" →
     ∀ v id, fs r.2 !! (watchedOf v, id) = fs e !! (watchedOf v, id)).
Proof.
  intros Hdb Hu Hne watchedOf wishlistOf listPath r.
  destruct (addToList_outcome e u answer accepted now item listType Hdb Hu Hne)
    as (e' & Hrun & _ & _ & Hcase).
  fold watchedOf wishlistOf listPath in Hcase.
  subst r. rewrite Hrun. simpl.
  assert (Hframe : ∀ k, k ≠ (listPath, js_String (ci_id item)) → fs e' !! k = fs e !! k).
  { intros k Hk. destruct (addSucceeds answer accepted item).
    - destruct Hcase as [(entry & -> & _) _]. by rewrite lookup_insert_ne.
    - by destruct Hcase as (-> & _). }
  split; [exact Hframe |]. split.
  - intros Hw v id. apply Hframe. subst listPath. rewrite bool_decide_eq_true_2 by done.
    intros H. apply (f_equal fst) in H. simpl in H.
    symmetry in H. by apply watchedPath_not_wishlistPath in H.
  - intros Hw v id. apply Hframe. subst listPath. rewrite bool_decide_eq_false_2 by done.
    intros H. apply (f_equal fst) in H. simpl in H.
    by apply watchedPath_not_wishlistPath in H.
Qed.

Lemma addToList_touches_one_document_witness :
  let r := addToList (Ok movieDetail) true noon movie1399 "watched" pendingWorld in
  fs r.2 !! ("artifacts/watch-tracker/users/ann-uid/friendRequests", "sam-uid")
  = pendingStore !! ("artifacts/watch-tracker/users/ann-uid/friendRequests", "sam-uid")
  ∧ fs r.2 !! ("artifacts/watch-tracker/users/ann-uid/wishlist", "1399") = None.
Proof.
  destruct (addToList_touches_one_document pendingWorld "ann-uid" (Ok movieDetail) true noon
              movie1399 "watched" eq_refl eq_refl ltac:(discriminate))
    as (Hframe & Hwish & _).
  cbv zeta in *.
  split.
  - apply Hframe. discriminate.
  - etrans; [exact (Hwish eq_refl "ann-uid" "1399") | reflexivity].
Defined.

(** X7. Titles with different numeric catalog ids never share a document:
    after two adds that go through, the first entry is still stored as the
    first add wrote it and the second is stored beside it. *)
Theorem addToList_distinct_ids_coexist (e : Env) (u : string) (n m : Z)
    (item1 item2 : CatalogItem) (d1 d2 : DetailData) (t1 t2 : Timestamp)
    (listType : string) :
  db (app e) = true →
  userId (app e) = Some u →
  u ≠ "" →
  ci_id item1 = JNum n →
  ci_id item2 = JNum m →
  n ≠ m →
  writable item1 = true →
  writable item2 = true →
  let listPath :=
    if bool_decide (listType = "watched")
    then "artifacts/" +:+ appId (app e) +:+ "/users/" +:+ u +:+ "/watchedList"
    else "artifacts/" +:+ appId (app e) +:+ "/users/" +:+ u +:+ "/wishlist" in
  let e1 := (addToList (Ok d1) true t1 item1 listType e).2 in
  let e2 := (addToList (Ok d2) true t2 item2 listType e1).2 in
  is_Some (fs e1 !! (listPath, pretty n))
  ∧ fs e2 !! (listPath, pretty n) = fs e1 !! (listPath, pretty n)
  ∧ is_Some (fs e2 !! (listPath, pretty m))
  ∧ (fs e1 !! (listPath, pretty m) = None →
     size (documentsOf (fs e2) listPath) = S (size (documentsOf (fs e1) listPath))).
Proof.
  intros Hdb Hu Hne Hid1 Hid2 Hnm Hw1 Hw2 listPath e1 e2.
  destruct (addToList_run e u d1 t1 item1 listType Hdb Hu Hne Hw1)
    as (entry1 & e1' & Hrun1 & Hfs1 & _ & _ & Happ1).
  assert (He1 : e1 = e1') by (subst e1; by rewrite Hrun1). clearbody e1. subst e1'.
  assert (Hdb1 : db (app e1) = true) by (by rewrite Happ1).
  assert (Hu1 : userId (app e1) = Some u) by (by rewrite Happ1).
  destruct (addToList_run e1 u d2 t2 item2 listType Hdb1 Hu1 Hne Hw2)
    as (entry2 & e2' & Hrun2 & Hfs2 & _ & _ & Happ2).
  assert (He2 : e2 = e2') by (subst e2; by rewrite Hrun2). clearbody e2. subst e2'.
  rewrite Happ1 in Hfs2. rewrite Hid1 in Hfs1. rewrite Hid2 in Hfs2. simpl in *.
  fold listPath in Hfs1, Hfs2.
  assert (Hkeys : (listPath, pretty m) ≠ (listPath, pretty n)).
  { intros H. apply (f_equal snd) in H. simpl in H.
    apply (inj pretty) in H. congruence. }
  split; [rewrite Hfs1, lookup_insert_eq; eauto |].
  split; [by rewrite Hfs2, lookup_insert_ne |].
  split; [rewrite Hfs2, lookup_insert_eq; eauto |].
  intros Hfresh. rewrite Hfs2, documentsOf_insert.
  apply map_size_insert_None. by rewrite documentsOf_lookup.
Qed.

Lemma addToList_distinct_ids_coexist_witness :
  let listPath := "artifacts/watch-tracker/users/ann-uid/watchedList" in
  let other :=
    {| ci_id := JNum 603; ci_media_type := JStr "movie"; ci_title := JStr "Other Film";
       ci_name := JUndefined; ci_poster_path := JNull;
       ci_release_date := JStr "1999-03-31"; ci_first_air_date := JUndefined |} in
  let e1 := (addToList (Ok movieDetail) true noon movie1399 "watched" annWorld).2 in
  let e2 := (addToList (Ok movieDetail) true afterNoon other "watched" e1).2 in
  is_Some (fs e1 !! (listPath, "1399"))
  ∧ fs e2 !! (listPath, "1399") = fs e1 !! (listPath, "1399")
  ∧ is_Some (fs e2 !! (listPath, "603"))
  ∧ (fs e1 !! (listPath, "603") = None →
     size (documentsOf (fs e2) listPath) = S (size (documentsOf (fs e1) listPath))).
Proof.
  intros listPath other.
  apply (addToList_distinct_ids_coexist annWorld "ann-uid" 1399 603 movie1399 other
           movieDetail movieDetail noon afterNoon "watched");
    [reflexivity | reflexivity | discriminate | reflexivity | reflexivity
    | discriminate | reflexivity | reflexivity].
Defined.

(** What [detailData.runtime || (detailData.episode_run_time ?
    detailData.episode_run_time[0] : 0) || 0] is once the store has resolved
    it. *)
Lemma stored_runtime (d : DetailData) (now : Timestamp) :
  let stored :=
    resolveValue now
      (js_or (js_or (runtime d)
                    (match episode_run_time d with
                     | Some l => default JUndefined (head l)
                     | None => JNum 0
                     end))
             (JNum 0)) in
  stored ≠ JUndefined
  ∧ (∀ n, runtime d = JNum n → n ≠ 0 → stored = JNum n)
  ∧ (∀ n rest, truthy (runtime d) = false →
       episode_run_time d = Some (JNum n :: rest) → n ≠ 0 → stored = JNum n)
  ∧ (truthy (runtime d) = false →
     match episode_run_time d with
     | Some (first :: _) => truthy first = false
     | _ => True
     end →
     stored = JNum 0).
Proof.
  intros stored. subst stored.
  assert (Hrt : js_or (js_or (runtime d)
                    (match episode_run_time d with
                     | Some l => default JUndefined (head l)
                     | None => JNum 0
                     end)) (JNum 0) ≠ JUndefined) by (by apply js_or_defined).
  set (v := js_or (js_or (runtime d) _) (JNum 0)) in *.
  assert (Hres : resolveValue now v ≠ JUndefined ∧
                 ∀ n, v = JNum n → resolveValue now v = JNum n).
  { split; [by destruct v | by intros n ->]. }
  destruct Hres as [Hdef Hnum].
  split; [exact Hdef |].
  split; [| split].
  - intros n Hr Hn. apply Hnum. subst v. rewrite Hr. unfold js_or. simpl.
    destruct (Z.eqb_spec n 0); [done |]. simpl. by destruct (Z.eqb_spec n 0).
  - intros n rest Hfalsy Hert Hn. apply Hnum. subst v. rewrite Hert. simpl.
    unfold js_or. rewrite Hfalsy. simpl.
    destruct (Z.eqb_spec n 0); done.
  - intros Hfalsy Hfirst. apply Hnum. subst v. unfold js_or. rewrite Hfalsy.
    destruct (episode_run_time d) as [[|first rest]|]; simpl in *; try done.
    by rewrite Hfirst.
Qed.

(** X8. The runtime an add stores comes from the catalog's detail answer:
    the [runtime] when it is a number other than 0; failing that the first
    [episode_run_time] when that is a number other than 0; and 0 in every
    other case (no runtime, no episode list, an empty list, a first entry of
    0 or null). It is never left undefined. *)
Theorem addToList_stores_runtime (e : Env) (u : string) (d : DetailData)
    (now : Timestamp) (item : CatalogItem) (listType : string) :
  db (app e) = true →
  userId (app e) = Some u →
  u ≠ "" →
  writable item = true →
  let listPath :=
    if bool_decide (listType = "watched")
    then "artifacts/" +:+ appId (app e) +:+ "/users/" +:+ u +:+ "/watchedList"
    else "artifacts/" +:+ appId (app e) +:+ "/users/" +:+ u +:+ "/wishlist" in
  let r := addToList (Ok d) true now item listType e in
  ∃ entry stored,
    fs r.2 !! (listPath, js_String (ci_id item)) = Some entry
    ∧ entry !! "runtime" = Some stored
    ∧ stored ≠ JUndefined
    ∧ (∀ n, runtime d = JNum n → n ≠ 0 → stored = JNum n)
    ∧ (∀ n rest, truthy (runtime d) = false →
         episode_run_time d = Some (JNum n :: rest) → n ≠ 0 → stored = JNum n)
    ∧ (truthy (runtime d) = false →
       match episode_run_time d with
       | Some (first :: _) => truthy first = false
       | _ => True
       end →
       stored = JNum 0).
Proof.
  intros Hdb Hu Hne Hw listPath r. subst listPath.
  destruct e as [st s vs a cs us]. destruct st. simpl in *. subst.
  unfold writable, validFields in Hw. simpl in Hw. rewrite !andb_true_r in *.
  subst r. unfold addToList.
  destruct (bool_decide (listType = "watched")); run_sdk.
  all: rewrite bool_decide_eq_false_2 by done; simpl; run_sdk.
  all: match goal with |- context [js_or (js_or ?a ?b) (JNum 0)] =>
         assert (Hrt : js_or (js_or a b) (JNum 0) ≠ JUndefined) by (by apply js_or_defined)
       end.
  all: rewrite (bool_decide_eq_false_2 _ Hrt); rewrite !andb_true_r.
  all: rewrite Hw; simpl.
  all: eexists _, _; (split; [apply lookup_insert_eq |]).
  all: unfold toDocData; simpl.
  all: split; [by rewrite lookup_insert_ne, lookup_insert_eq |].
  all: apply stored_runtime.
Qed.

Lemma addToList_stores_runtime_witness :
  let r := addToList (Ok seriesDetail) true noon series1399 "watched" annWorld in
  ∃ entry,
    fs r.2 !! ("artifacts/watch-tracker/users/ann-uid/watchedList", "1399") = Some entry
    ∧ entry !! "runtime" = Some (JNum 60).
Proof.
  destruct (addToList_stores_runtime annWorld "ann-uid" seriesDetail noon series1399 "watched"
              eq_refl eq_refl ltac:(discriminate) eq_refl)
    as (entry & stored & Hentry & Hrt & _ & _ & Hepisode & _).
  cbv zeta in *.
  exists entry. split; [exact Hentry |].
  rewrite Hrt. f_equal. apply (Hepisode 60 []); [reflexivity | reflexivity | discriminate].
Defined.

(** ** Friend requests, continued *)

Lemma toDocData_displayName (now now' : Timestamp) (v : Value) :
  v ≠ JServerTimestamp →
  toDocData now [("displayName", v)] = toDocData now' [("displayName", v)].
Proof. intros Hv. unfold toDocData. simpl. by destruct v. Qed.

(** X9. Accepting is safe to repeat, and does not look whether the request
    is still there: when an accepted accept is run again on the store it
    left (at any later time), the store stays exactly as the first run left
    it. *)
Theorem acceptRequest_repeat (e : Env) (now now' : Timestamp)
    (request : FriendRequest) (A : string) :
  db (app e) = true →
  userId (app e) = Some A →
  request_displayName request ≠ JUndefined →
  request_displayName request ≠ JServerTimestamp →
  let r := handleFriendRequest true now request "accept" e in
  let r' := handleFriendRequest true now' request "accept" r.2 in
  r.1 = Ok tt ∧ r'.1 = Ok tt ∧ fs r'.2 = fs r.2.
Proof.
  intros Hdb HA Hdef Hsent r r'.
  pose proof (handleFriendRequest_accept_run e true now request A Hdb HA) as Hr.
  cbv zeta in Hr. fold r in Hr.
  assert (Hvalid : validFields [("displayName", request_displayName request)] = true).
  { unfold validFields. simpl. by rewrite bool_decide_eq_false_2. }
  rewrite Hvalid in Hr. simpl in Hr.
  assert (Hdb1 : db (app r.2) = true) by (by rewrite Hr).
  assert (HA1 : userId (app r.2) = Some A) by (by rewrite Hr).
  pose proof (handleFriendRequest_accept_run r.2 true now' request A Hdb1 HA1) as Hr'.
  cbv zeta in Hr'. fold r' in Hr'.
  rewrite Hvalid in Hr'. simpl in Hr'.
  rewrite Hr'. split; [by rewrite Hr |]. split; [done |]. simpl.
  rewrite Hr. simpl.
  rewrite <- (toDocData_displayName now now' _ Hsent).
  rewrite <- (toDocData_displayName now now' (JStr (displayName (app e)))) by done.
  apply map_eq. intros k.
  repeat (rewrite ?lookup_delete, ?lookup_insert; case_decide; try done).
Qed.

Lemma acceptRequest_repeat_witness :
  let r := handleFriendRequest true noon samRequest "accept" pendingWorld in
  let r' := handleFriendRequest true afterNoon samRequest "accept" r.2 in
  r.1 = Ok tt ∧ r'.1 = Ok tt ∧ fs r'.2 = fs r.2.
Proof.
  apply (acceptRequest_repeat pendingWorld noon afterNoon samRequest "ann-uid");
    [reflexivity | reflexivity | discriminate | discriminate].
Defined.

(** What [sendFriendRequest] does, for a sender who is signed in. *)
Lemma sendFriendRequest_run (e : Env) (accepted : bool) (now : Timestamp)
    (targetUser : UserResult) (S : string) :
  db (app e) = true →
  userId (app e) = Some S →
  let key := ("artifacts/" +:+ appId (app e) +:+ "/users/"
                +:+ js_String (result_id targetUser) +:+ "/friendRequests", S) in
  let request := toDocData now [("displayName", JStr (displayName (app e)));
                                ("addedAt", JServerTimestamp)] in
  sendFriendRequest accepted now targetUser e =
    if accepted then
      (Ok tt, {| app := app e; fs := <[key := request]> (fs e);
                 versions := versions e ++ [<[key := request]> (fs e)];
                 authp := authp e; calls := calls e ++ [CallSetDoc (doc key.1 key.2)];
                 unhandled := unhandled e |})
    else
      (Throw write_rejected,
       {| app := app e; fs := fs e; versions := versions e; authp := authp e;
          calls := calls e ++ [CallSetDoc (doc key.1 key.2)]; unhandled := unhandled e |}).
Proof.
  intros Hdb HS. destruct e as [st s vs a cs us]. destruct st. simpl in *. subst.
  unfold sendFriendRequest. run_sdk. by destruct accepted.
Qed.

(** X10. A request is filed in the target's inbox under the sender's own
    account id, with the sender's display name and the server's time.
    Sending again before it is answered writes over the same document: the
    inbox is no longer than after the first request and holds the time of
    the second. Nothing else in the store changes. *)
Theorem sendFriendRequest_upserts (e : Env) (t1 t2 : Timestamp)
    (targetUser : UserResult) (S : string) :
  db (app e) = true →
  userId (app e) = Some S →
  let inbox := "artifacts/" +:+ appId (app e) +:+ "/users/"
                 +:+ js_String (result_id targetUser) +:+ "/friendRequests" in
  let e1 := (sendFriendRequest true t1 targetUser e).2 in
  let e2 := (sendFriendRequest true t2 targetUser e1).2 in
  (∃ request, fs e1 !! (inbox, S) = Some request
              ∧ request !! "displayName" = Some (JStr (displayName (app e)))
              ∧ request !! "addedAt" = Some (JTime t1))
  ∧ (∃ request, fs e2 !! (inbox, S) = Some request
                ∧ request !! "addedAt" = Some (JTime t2))
  ∧ size (documentsOf (fs e2) inbox) = size (documentsOf (fs e1) inbox)
  ∧ (∀ k, k ≠ (inbox, S) → fs e2 !! k = fs e !! k).
Proof.
  intros Hdb HS inbox e1 e2.
  pose proof (sendFriendRequest_run e true t1 targetUser S Hdb HS) as H1.
  cbv zeta in H1. simpl in H1.
  subst e1 e2. rewrite H1. cbn [snd].
  rewrite (sendFriendRequest_run _ true t2 targetUser S) by done. simpl.
  fold inbox.
  split; [| split; [| split]].
  - eexists. split; [apply lookup_insert_eq |]. unfold toDocData. simpl.
    split; [by rewrite lookup_insert_ne, lookup_insert_eq | apply lookup_insert_eq].
  - eexists. split; [apply lookup_insert_eq |]. unfold toDocData. simpl.
    apply lookup_insert_eq.
  - apply documentsOf_overwrite_size. rewrite lookup_insert_eq. eauto.
  - intros k Hk. by rewrite !lookup_insert_ne.
Qed.

Lemma sendFriendRequest_upserts_witness :
  let inbox := "artifacts/watch-tracker/users/ann-uid/friendRequests" in
  let e := world samSession emptyProvider ∅ in
  let e1 := (sendFriendRequest true noon annResult e).2 in
  let e2 := (sendFriendRequest true afterNoon annResult e1).2 in
  (∃ request, fs e1 !! (inbox, "sam-uid") = Some request
              ∧ request !! "displayName" = Some (JStr "Sam Roe")
              ∧ request !! "addedAt" = Some (JTime noon))
  ∧ (∃ request, fs e2 !! (inbox, "sam-uid") = Some request
                ∧ request !! "addedAt" = Some (JTime afterNoon))
  ∧ size (documentsOf (fs e2) inbox) = size (documentsOf (fs e1) inbox)
  ∧ (∀ k, k ≠ (inbox, "sam-uid") → fs e2 !! k = fs e !! k).
Proof.
  apply (sendFriendRequest_upserts (world samSession emptyProvider ∅) noon afterNoon
           annResult "sam-uid"); reflexivity.
Defined.

(** X11. Send, then decline, is a round trip: when Sam had no request
    pending with Ann, his request followed by her declining it leaves the
    store exactly as it was before he sent it. *)
Theorem send_then_decline_restores (e : Env) (recipient : AppState) (t1 t2 : Timestamp)
    (targetUser : UserResult) (S A action : string) :
  db (app e) = true →
  userId (app e) = Some S →
  result_id targetUser = JStr A →
  db recipient = true →
  userId recipient = Some A →
  appId recipient = appId (app e) →
  action ≠ "accept" →
  fs e !! ("artifacts/" +:+ appId (app e) +:+ "/users/" +:+ A +:+ "/friendRequests", S) = None →
  let sent := (sendFriendRequest true t1 targetUser e).2 in
  let r := handleFriendRequest true t2 (requestFrom (app e) S) action (inSession recipient sent) in
  is_Some (fs sent !! ("artifacts/" +:+ appId (app e) +:+ "/users/" +:+ A +:+ "/friendRequests", S))
  ∧ r.1 = Ok tt
  ∧ fs r.2 = fs e.
Proof.
  intros Hdb HS Hid HdbA HA Happ Hact Hfresh sent r.
  pose proof (sendFriendRequest_run e true t1 targetUser S Hdb HS) as H1.
  cbv zeta in H1. rewrite Hid in H1. simpl in H1.
  subst r sent. rewrite H1. cbn [snd].
  rewrite (handleFriendRequest_decline_run _ true t2 _ action A) by done.
  simpl. rewrite Happ.
  split; [rewrite lookup_insert_eq; eauto |]. split; [done |].
  rewrite delete_insert_eq. by apply delete_id.
Qed.

Lemma send_then_decline_restores_witness :
  let e := world samSession annProvider ∅ in
  let sent := (sendFriendRequest true noon annResult e).2 in
  let r := handleFriendRequest true afterNoon (requestFrom samSession "sam-uid") "decline"
             (inSession (annSession []) sent) in
  is_Some (fs sent !! ("artifacts/" +:+ "watch-tracker" +:+ "/users/" +:+ "ann-uid"
                         +:+ "/friendRequests", "sam-uid"))
  ∧ r.1 = Ok tt
  ∧ fs r.2 = ∅.
Proof.
  apply (send_then_decline_restores (world samSession annProvider ∅) (annSession [])
           noon afterNoon annResult "sam-uid" "ann-uid" "decline");
    [reflexivity | reflexivity | reflexivity | reflexivity | reflexivity | reflexivity
    | discriminate | reflexivity].
Defined.

(** X12. Send, then accept, makes the friendship: after Sam's request and
    Ann's accepting it, Ann's friends list holds Sam under his display name,
    Sam's holds Ann under hers, the request is gone from her inbox, and
    every other document is as it was before the request was sent. *)
Theorem send_then_accept_befriends (e : Env) (recipient : AppState) (t1 t2 : Timestamp)
    (targetUser : UserResult) (S A : string) :
  db (app e) = true →
  userId (app e) = Some S →
  result_id targetUser = JStr A →
  db recipient = true →
  userId recipient = Some A →
  appId recipient = appId (app e) →
  S ≠ A →
  let friendsOf u := "artifacts/" +:+ appId (app e) +:+ "/users/" +:+ u +:+ "/friends" in
  let inbox := "artifacts/" +:+ appId (app e) +:+ "/users/" +:+ A +:+ "/friendRequests" in
  let sent := (sendFriendRequest true t1 targetUser e).2 in
  let r := handleFriendRequest true t2 (requestFrom (app e) S) "accept"
             (inSession recipient sent) in
  r.1 = Ok tt
  ∧ fs r.2 !! (friendsOf A, S) = Some {[ "displayName" := JStr (displayName (app e)) ]}
  ∧ fs r.2 !! (friendsOf S, A) = Some {[ "displayName" := JStr (displayName recipient) ]}
  ∧ fs r.2 !! (inbox, S) = None
  ∧ (∀ k, k ≠ (friendsOf A, S) → k ≠ (friendsOf S, A) → k ≠ (inbox, S) →
          fs r.2 !! k = fs e !! k).
Proof.
  intros Hdb HS Hid HdbA HA Happ HSA friendsOf inbox sent r.
  pose proof (sendFriendRequest_run e true t1 targetUser S Hdb HS) as H1.
  cbv zeta in H1. rewrite Hid in H1. simpl in H1.
  subst r sent. rewrite H1. cbn [snd].
  rewrite (handleFriendRequest_accept_run _ true t2 _ A) by done.
  simpl. rewrite Happ. fold inbox. fold (friendsOf A) (friendsOf S).
  assert (H1' : (friendsOf A, S) ≠ (inbox, S)).
  { intros H. apply (f_equal fst) in H. by apply friendsPath_not_requestsPath in H. }
  assert (H2' : (friendsOf S, A) ≠ (inbox, S)).
  { intros H. apply (f_equal fst) in H. by apply friendsPath_not_requestsPath in H. }
  assert (H3' : (friendsOf S, A) ≠ (friendsOf A, S)).
  { intros H. apply (f_equal snd) in H. simpl in H. congruence. }
  split; [done |].
  split; [by rewrite lookup_delete_ne, lookup_insert_ne, lookup_insert_eq |].
  split; [by rewrite lookup_delete_ne, lookup_insert_eq |].
  split; [apply lookup_delete_eq |].
  intros k Hk1 Hk2 Hk3. by rewrite lookup_delete_ne, !lookup_insert_ne.
Qed.

Lemma send_then_accept_befriends_witness :
  let e := world samSession annProvider ∅ in
  let sent := (sendFriendRequest true noon annResult e).2 in
  let r := handleFriendRequest true afterNoon (requestFrom samSession "sam-uid") "accept"
             (inSession (annSession []) sent) in
  r.1 = Ok tt
  ∧ fs r.2 !! ("artifacts/watch-tracker/users/ann-uid/friends", "sam-uid")
    = Some {[ "displayName" := JStr "Sam Roe" ]}
  ∧ fs r.2 !! ("artifacts/watch-tracker/users/sam-uid/friends", "ann-uid")
    = Some {[ "displayName" := JStr "Ann Lee" ]}
  ∧ fs r.2 !! ("artifacts/watch-tracker/users/ann-uid/friendRequests", "sam-uid") = None.
Proof.
  destruct (send_then_accept_befriends (world samSession annProvider ∅) (annSession [])
              noon afterNoon annResult "sam-uid" "ann-uid"
              eq_refl eq_refl eq_refl eq_refl eq_refl eq_refl ltac:(discriminate))
    as (Hok & Hown & Htheir & Hreq & _).
  cbv zeta in *.
  split; [exact Hok |]. split; [exact Hown |]. split; [exact Htheir | exact Hreq].
Defined.

(** ** The feed, continued *)

(** X13. With at least one friend the feed never loads. The loader's first
    read hands a query to [getDoc] and is refused, so for every friend list
    and every store: one read is attempted, for the first friend only; the
    feed keeps whatever it held; the loading flag stays up for good; and
    the feed tab therefore shows its spinner, the old entries if there were
    any, and never the line that nothing has been watched. *)
Theorem friendsFeed_never_loads (e : Env) (friend : Friend) (rest : list Friend) :
  db (app e) = true →
  friends (app e) = friend :: rest →
  let r := friendsFeedEffect e in
  let section := feedSection (friendsFeed (app r.2)) (isFeedLoading (app r.2)) in
  r.1 = Ok tt
  ∧ friendsFeed (app r.2) = friendsFeed (app e)
  ∧ isFeedLoading (app r.2) = true
  ∧ unhandled r.2 = unhandled e ++ [invalid_argument]
  ∧ fs r.2 = fs e
  ∧ calls r.2 =
      calls e ++
      [CallGetDoc (ofQuery (query
         (collection ("artifacts/" +:+ appId (app e) +:+ "/users/" +:+ friend_id friend
                        +:+ "/watchedList"))
         [firestoreOrderBy "addedAt" Desc; limit 5]))]
  ∧ showsSpinner section = true
  ∧ cards section = friendsFeed (app e)
  ∧ showsNothingWatched section = false.
Proof.
  intros Hdb Hf r section.
  assert (Hr : ∃ e', r = (Ok tt, e')
                     ∧ friendsFeed (app e') = friendsFeed (app e)
                     ∧ isFeedLoading (app e') = true
                     ∧ unhandled e' = unhandled e ++ [invalid_argument]
                     ∧ fs e' = fs e
                     ∧ calls e' = calls e ++
                         [CallGetDoc (ofQuery (query
                            (collection ("artifacts/" +:+ appId (app e) +:+ "/users/"
                                           +:+ friend_id friend +:+ "/watchedList"))
                            [firestoreOrderBy "addedAt" Desc; limit 5]))]).
  { subst r. unfold friendsFeedEffect, bind at 1, getApp. simpl. rewrite Hf. simpl.
    unfold bind at 1, setIsFeedLoading, modifyApp. simpl.
    unfold detached, fetchFeeds, bind at 1. simpl. rewrite Hf.
    match goal with |- context [fetchLoop _ _ _ ?e1] =>
      destruct (fetchLoop_rejects friend rest (appId (app e)) [] e1 Hdb)
        as (e' & -> & Happ & Hfs & Hv & Hu & Hc)
    end.
    eexists. split; [reflexivity |]. simpl in *.
    by rewrite Happ, Hfs, Hu, Hc. }
  destruct Hr as (e' & Hr & Hfeed & Hload & Hun & Hfs & Hcalls).
  subst section. rewrite Hr. simpl. rewrite Hfeed, Hload.
  unfold feedSection. simpl.
  repeat split; try done.
  all: by destruct (friendsFeed (app e)).
Qed.

Lemma friendsFeed_never_loads_witness :
  let r := friendsFeedEffect twoFriendsWorld in
  let section := feedSection (friendsFeed (app r.2)) (isFeedLoading (app r.2)) in
  isFeedLoading (app r.2) = true
  ∧ showsSpinner section = true
  ∧ cards section = []
  ∧ showsNothingWatched section = false.
Proof.
  destruct (friendsFeed_never_loads twoFriendsWorld friendF1 [friendF2] eq_refl eq_refl)
    as (_ & _ & Hload & _ & _ & _ & Hspin & Hcards & Hnothing).
  cbv zeta in *.
  split; [exact Hload |]. split; [exact Hspin |]. split; [exact Hcards | exact Hnothing].
Defined.

Section SortFixedPoint.
Context {A : Type} (key : A → Z) (cmp : A → A → Z).
Hypothesis cmp_key : ∀ a b, cmp a b = key b - key a.

(** A list whose keys never increase is left as it is. *)
Lemma js_sort_of_sorted (l : list A) :
  StronglySorted (λ a b : A, key b ≤ key a) l → js_sort cmp l = l.
Proof.
  induction 1 as [|x l Hl IH Hx]; simpl; [done |].
  rewrite IH. destruct l as [|y l']; simpl; [done |].
  apply Forall_cons in Hx as [Hy _].
  rewrite cmp_key. destruct (Z.leb_spec (key y - key x) 0); [done | lia].
Qed.
End SortFixedPoint.

(** X14. Sorting the feed settles it: a sequence whose [addedAt] seconds
    already never increase comes out unchanged, and so does every sorted
    feed that is sorted again. *)
Theorem sortFeed_fixed_point (feed : list FeedItem) :
  (StronglySorted (λ a b, feedKey b ≤ feedKey a) feed → sortFeed feed = feed)
  ∧ sortFeed (sortFeed feed) = sortFeed feed.
Proof.
  split.
  - apply (js_sort_of_sorted feedKey feedCompare feedCompare_key).
  - apply (js_sort_of_sorted feedKey feedCompare feedCompare_key).
    apply (js_sort_sorted feedKey feedCompare feedCompare_key).
Qed.

Lemma sortFeed_fixed_point_witness :
  sortFeed [datedItem; undatedItem] = [datedItem; undatedItem].
Proof.
  apply (proj1 (sortFeed_fixed_point [datedItem; undatedItem])).
  repeat constructor. vm_compute. discriminate.
Defined.

(** ** Searching the catalog *)

(** X15. As the source stands, with the placeholder still in
    [TMDB_API_KEY], a media search never reaches the catalog: for every
    search term, blank or not, it sets "Please add your TMDb API key." and
    returns, with no request made and the results and flags untouched. *)
Theorem searchMedia_needs_key (answer : Outcome SearchData) (v : ViewState) (e : Env) :
  let r := searchMedia answer v e in
  r.1 = Ok tt
  ∧ r.2.1 = v
  ∧ error (app r.2.2) = Some "Please add your TMDb API key."
  ∧ calls r.2.2 = calls e
  ∧ fs r.2.2 = fs e.
Proof. unfold searchMedia, searchMediaWith. run_view. by rewrite orb_true_r. Qed.

(** X16. Once the key is replaced, a search for a term that is not blank
    asks the catalog once and, when the answer carries a results array,
    keeps of it exactly the movies and series, in the catalog's order:
    people and anything else are dropped. No error is set and the searching
    flag is down again. A blank term asks nothing and changes nothing. *)
Theorem searchMediaWith_keeps_movies_and_series (apiKey : string) (l : list CatalogItem)
    (v : ViewState) (e : Env) :
  apiKey ≠ "YOUR_TMDB_API_KEY" →
  (trim (searchTerm v) = "" →
   ∀ answer, searchMediaWith apiKey answer v e = (Ok tt, (v, e)))
  ∧ (trim (searchTerm v) ≠ "" →
     let r := searchMediaWith apiKey (Ok {| results := Some l |}) v e in
     r.1 = Ok tt
     ∧ searchResults r.2.1 = List.filter isMovieOrTv l
     ∧ Forall (λ item, ci_media_type item = JStr "movie" ∨ ci_media_type item = JStr "tv")
              (searchResults r.2.1)
     ∧ isSearching r.2.1 = false
     ∧ app r.2.2 = app e
     ∧ calls r.2.2 =
         calls e ++
         [CallFetch (TMDB_API_URL +:+ "/search/multi?api_key=" +:+ apiKey +:+ "&query="
                       +:+ encodeURIComponent (searchTerm v))]).
Proof.
  intros Hkey. split.
  - intros Hblank answer. unfold searchMediaWith. run_view.
    by rewrite (bool_decide_eq_true_2 _ Hblank), (bool_decide_eq_false_2 _ Hkey).
  - intros Hterm. unfold searchMediaWith. run_view.
    rewrite (bool_decide_eq_false_2 _ Hterm), (bool_decide_eq_false_2 _ Hkey). simpl.
    run_view. repeat split; try done.
    apply Forall_forall. intros item Hin.
    apply list_elem_of_In, filter_In in Hin as [_ Hin].
    unfold isMovieOrTv in Hin. apply orb_true_iff in Hin as [H | H];
      apply bool_decide_eq_true_1 in H; auto.
Qed.

Lemma searchMediaWith_keeps_movies_and_series_witness :
  let r := searchMediaWith "a-real-key"
             (Ok {| results := Some [movie1399; person1399; series1399] |})
             (searchingFor "dune 2") annWorld in
  searchMediaWith "a-real-key" (Ok {| results := Some [person1399] |}) blankView annWorld
  = (Ok tt, (blankView, annWorld))
  ∧ searchResults r.2.1 = [movie1399; series1399]
  ∧ isSearching r.2.1 = false.
Proof.
  destruct (searchMediaWith_keeps_movies_and_series "a-real-key"
              [movie1399; person1399; series1399] (searchingFor "dune 2") annWorld
              ltac:(discriminate)) as [_ Hfound].
  destruct (searchMediaWith_keeps_movies_and_series "a-real-key" [] blankView annWorld
              ltac:(discriminate)) as [Hblank _].
  destruct (Hfound ltac:(discriminate)) as (_ & Hres & _ & Hflag & _).
  cbv zeta in *.
  split; [apply Hblank; reflexivity |].
  split; [exact Hres | exact Hflag].
Defined.

(** X17. A search that fails, because the request fails or because the
    answer has no results array, is caught: the handler returns normally
    with "Failed to search media.", the previous results still shown, and
    the searching flag down again. *)
Theorem searchMediaWith_failure (apiKey : string) (answer : Outcome SearchData)
    (v : ViewState) (e : Env) :
  apiKey ≠ "YOUR_TMDB_API_KEY" →
  trim (searchTerm v) ≠ "" →
  match answer with
  | Ok d => results d = None
  | Throw _ => True
  end →
  let r := searchMediaWith apiKey answer v e in
  r.1 = Ok tt
  ∧ error (app r.2.2) = Some "Failed to search media."
  ∧ searchResults r.2.1 = searchResults v
  ∧ isSearching r.2.1 = false
  ∧ fs r.2.2 = fs e.
Proof.
  intros Hkey Hterm Hfail. unfold searchMediaWith. run_view.
  rewrite (bool_decide_eq_false_2 _ Hterm), (bool_decide_eq_false_2 _ Hkey). simpl.
  destruct answer as [[res] | msg]; simpl in *; [subst res |]; by run_view.
Qed.

Lemma searchMediaWith_failure_witness :
  let r := searchMediaWith "a-real-key" (Ok {| results := None |})
             (searchingFor "dune") annWorld in
  r.1 = Ok tt
  ∧ error (app r.2.2) = Some "Failed to search media."
  ∧ searchResults r.2.1 = []
  ∧ isSearching r.2.1 = false
  ∧ fs r.2.2 = ∅.
Proof.
  apply (searchMediaWith_failure "a-real-key" (Ok {| results := None |})
           (searchingFor "dune") annWorld);
    [discriminate | discriminate | reflexivity].
Defined.

(** ** Searching for users *)

(** X18. The user search never delivers. For a term that is not blank it
    raises the searching flag and asks the SDK for the collection
    [artifacts/<appId>/public/users]; that path has four segments and is
    refused as a collection, so the handler rejects there: the flag stays
    up, the previous results stay, and no query is built and nothing is
    read from the store. For a blank term it does nothing at all. *)
Theorem searchUsers_never_delivers (v : ViewState) (e : Env) :
  db (app e) = true →
  (trim (userSearchTerm v) = "" → searchUsers v e = (Ok tt, (v, e)))
  ∧ (trim (userSearchTerm v) ≠ "" →
     let r := searchUsers v e in
     r.1 = Throw (invalid_collection ["artifacts"; appId (app e); "public"; "users"])
     ∧ isUserSearching r.2.1 = true
     ∧ userSearchResults r.2.1 = userSearchResults v
     ∧ app r.2.2 = app e
     ∧ fs r.2.2 = fs e
     ∧ calls r.2.2 = calls e
     ∧ unhandled r.2.2 = unhandled e).
Proof.
  intros Hdb. destruct e as [st s vs a cs us]. destruct st. simpl in *. subst. split.
  - intros Hblank. unfold searchUsers. run_view.
    by rewrite (bool_decide_eq_true_2 _ Hblank).
  - intros Hterm. unfold searchUsers. run_view.
    rewrite (bool_decide_eq_false_2 _ Hterm). by run_view.
Qed.

Lemma searchUsers_never_delivers_witness :
  let r := searchUsers (searchingFor "sam") annWorld in
  searchUsers blankView annWorld = (Ok tt, (blankView, annWorld))
  ∧ r.1 = Throw (invalid_collection ["artifacts"; "watch-tracker"; "public"; "users"])
  ∧ isUserSearching r.2.1 = true
  ∧ userSearchResults r.2.1 = []
  ∧ calls r.2.2 = [].
Proof.
  destruct (searchUsers_never_delivers blankView annWorld eq_refl) as [Hblank _].
  destruct (searchUsers_never_delivers (searchingFor "sam") annWorld eq_refl) as [_ Hterm].
  destruct (Hterm ltac:(discriminate)) as (Hthrow & Hflag & Hres & _ & _ & Hcalls & _).
  cbv zeta in *.
  split; [apply Hblank; reflexivity |].
  split; [exact Hthrow |]. split; [exact Hflag |]. split; [exact Hres | exact Hcalls].
Defined.

(** ** Where to watch *)

(** X19. Asking where to watch always ends with the dialog open and not
    loading, whatever the catalog does, and never throws. When the answer
    has a results map, the dialog holds the providers of the region "IN"
    (none, when the map has no such region) together with the title asked
    about, and no error is set; otherwise it holds neither and the error is
    "Could not fetch providers.". The store is not touched. *)
Theorem fetchWatchProviders_settles (answer : Outcome ProvidersData) (item : CatalogItem)
    (v : ViewState) (e : Env) :
  let r := fetchWatchProviders answer item v e in
  r.1 = Ok tt
  ∧ isProviderModalOpen r.2.1 = true
  ∧ fs r.2.2 = fs e
  ∧ calls r.2.2 =
      calls e ++
      [CallFetch (TMDB_API_URL +:+ "/" +:+ js_String (ci_media_type item) +:+ "/"
                    +:+ js_String (ci_id item) +:+ "/watch/providers?api_key="
                    +:+ TMDB_API_KEY)]
  ∧ match answer with
    | Ok {| regions := Some rs |} =>
        watchProviders r.2.1
        = Some {| wp_loading := false; wp_data := rs !! "IN"; wp_item := Some item |}
        ∧ error (app r.2.2) = error (app e)
    | _ =>
        watchProviders r.2.1
        = Some {| wp_loading := false; wp_data := None; wp_item := None |}
        ∧ error (app r.2.2) = Some "Could not fetch providers."
    end.
Proof.
  unfold fetchWatchProviders. run_view.
  destruct answer as [[[rs|]] | msg]; by run_view.
Qed.

(** ** What a card shows *)

Lemma beforeFirst_no_sep (sep : Ascii.ascii) (s : string) :
  sep ∉ String.list_ascii_of_string (beforeFirst sep s).
Proof.
  induction s as [|c s IH]; simpl; [apply not_elem_of_nil |].
  case_bool_decide; simpl; [apply not_elem_of_nil |].
  apply not_elem_of_cons. split; [congruence | done].
Qed.

Lemma beforeFirst_app (sep : Ascii.ascii) (y rest : string) :
  sep ∉ String.list_ascii_of_string y →
  beforeFirst sep (y +:+ String sep rest) = y.
Proof.
  induction y as [|c y IH]; intros Hy.
  - simpl. by rewrite bool_decide_eq_true_2.
  - change (String c y +:+ String sep rest) with (String c (y +:+ String sep rest)).
    simpl in *. apply not_elem_of_cons in Hy as [Hc Hy].
    rewrite bool_decide_eq_false_2 by congruence. by rewrite IH.
Qed.

(** X20. The year on a card is what comes before the first hyphen of the
    release date: a date made of a year, a hyphen and the rest shows the
    year, and what is shown never contains a hyphen. A date that is missing,
    null or empty shows "N/A". A date that is neither a string nor falsy
    makes the card throw. *)
Theorem releaseYear_shows_year (v : Value) :
  (truthy v = false → releaseYear v = Ok "N/A")
  ∧ (∀ y rest, hyphen ∉ String.list_ascii_of_string y →
       releaseYear (JStr (y +:+ String hyphen rest)) = Ok y)
  ∧ (∀ shown, releaseYear v = Ok shown → hyphen ∉ String.list_ascii_of_string shown)
  ∧ (truthy v = true → (∀ s, v ≠ JStr s) → ∃ msg, releaseYear v = Throw msg).
Proof.
  split; [| split; [| split]].
  - intros Hv. unfold releaseYear, js_or. by rewrite Hv.
  - intros y rest Hy. unfold releaseYear, js_or.
    assert (Ht : truthy (JStr (y +:+ String hyphen rest)) = true).
    { simpl. rewrite bool_decide_eq_false_2; [done |]. by destruct y. }
    rewrite Ht. f_equal. by apply beforeFirst_app.
  - intros shown. unfold releaseYear, js_or.
    destruct (truthy v) eqn:Hv.
    + destruct v; try done. intros [= <-]. apply beforeFirst_no_sep.
    + intros [= <-]. vm_compute. intros H.
      repeat (apply elem_of_cons in H as [H | H]; [discriminate H |]).
      by apply elem_of_nil in H.
  - intros Hv Hs. unfold releaseYear, js_or. rewrite Hv.
    destruct v; eauto. by destruct (Hs s).
Qed.

Lemma releaseYear_shows_year_witness :
  releaseYear JNull = Ok "N/A"
  ∧ releaseYear (JStr "1999-03-31") = Ok "1999"
  ∧ (∃ msg, releaseYear (JNum 1999) = Throw msg).
Proof.
  destruct (releaseYear_shows_year JNull) as (Hna & _).
  destruct (releaseYear_shows_year (JStr "1999-03-31")) as (_ & Hyear & _).
  destruct (releaseYear_shows_year (JNum 1999)) as (_ & _ & _ & Hthrow).
  split; [apply Hna; reflexivity |].
  split.
  - apply (Hyear "1999" "03-31"). vm_compute.
    intros H. repeat (apply elem_of_cons in H as [H | H]; [discriminate H |]).
    by apply elem_of_nil in H.
  - apply Hthrow; [reflexivity | discriminate].
Defined.

(** ** Signing up, continued *)

(** X3. No sign-up gets past its uniqueness check. For every display name
    of three characters or more, every email and password, and every state
    of the directory, the check ends at its first line: the collection path
    [artifacts/<appId>/public/users] has four segments and the SDK refuses
    it. The refusal is shown as the error, the loading flag is down again,
    and no call at all was made: no query is read, the auth provider is
    never asked to create the account and no profile is written. *)
Theorem handleSignup_never_registers (e : Env) (uid : string) (accepted : bool)
    (now : Timestamp) :
  auth (app e) = true →
  db (app e) = true →
  (3 ≤ String.length (displayName (app e)))%nat →
  let r := handleSignup uid accepted now e in
  r.1 = Ok tt
  ∧ error (app r.2)
    = Some (invalid_collection ["artifacts"; appId (app e); "public"; "users"])
  ∧ isLoading (app r.2) = false
  ∧ authp r.2 = authp e
  ∧ fs r.2 = fs e
  ∧ versions r.2 = versions e
  ∧ calls r.2 = calls e.
Proof.
  intros Hauth Hdb Hlen r.
  destruct (handleSignup_precheck_rejects e uid accepted now Hauth Hdb Hlen)
    as (e' & Hrun & H).
  subst r. rewrite Hrun. simpl. done.
Qed.

Lemma handleSignup_never_registers_witness :
  let r := handleSignup "new-uid" true noon (world (signupForm "Ann Lee") emptyProvider ∅) in
  r.1 = Ok tt
  ∧ error (app r.2)
    = Some (invalid_collection ["artifacts"; "watch-tracker"; "public"; "users"])
  ∧ isLoading (app r.2) = false
  ∧ authp r.2 = emptyProvider
  ∧ fs r.2 = ∅
  ∧ versions r.2 = [∅]
  ∧ calls r.2 = [].
Proof.
  apply (handleSignup_never_registers (world (signupForm "Ann Lee") emptyProvider ∅));
    [reflexivity | reflexivity | simpl; lia].
Defined.

(** ** Removing what was added *)

(** X21. Remove undoes add. When a title was not on the list, adding it
    and then removing it by the id its list entry carries (the document id,
    [String(item.id)]), or by the catalog id itself, leaves the store as it
    was before the add. *)
Theorem add_then_remove_restores (e : Env) (u : string) (d : DetailData)
    (now : Timestamp) (item : CatalogItem) (itemId : Value) (listType : string) :
  db (app e) = true →
  userId (app e) = Some u →
  u ≠ "" →
  writable item = true →
  itemId = JStr (js_String (ci_id item)) ∨ itemId = ci_id item →
  let listPath :=
    if bool_decide (listType = "watched")
    then "artifacts/" +:+ appId (app e) +:+ "/users/" +:+ u +:+ "/watchedList"
    else "artifacts/" +:+ appId (app e) +:+ "/users/" +:+ u +:+ "/wishlist" in
  fs e !! (listPath, js_String (ci_id item)) = None →
  let added := (addToList (Ok d) true now item listType e).2 in
  let r := removeFromList true itemId listType added in
  is_Some (fs added !! (listPath, js_String (ci_id item)))
  ∧ r.1 = Ok tt
  ∧ fs r.2 = fs e.
Proof.
  intros Hdb Hu Hne Hw Hid listPath Hfresh added r.
  destruct (addToList_run e u d now item listType Hdb Hu Hne Hw)
    as (entry & e' & Hrun & Hfs & _ & _ & Happ).
  assert (He : added = e') by (subst added; by rewrite Hrun). clearbody added. subst e'.
  assert (Hdb1 : db (app added) = true) by (by rewrite Happ).
  assert (Hu1 : userId (app added) = Some u) by (by rewrite Happ).
  pose proof (removeFromList_run added u true itemId listType Hdb1 Hu1 Hne) as Hr.
  cbv zeta in Hr. fold r in Hr. rewrite Happ in Hr. fold listPath in Hr, Hfs.
  assert (Hsame : js_String itemId = js_String (ci_id item)) by (by destruct Hid as [-> | ->]).
  rewrite Hsame in Hr. rewrite Hr. simpl.
  split; [rewrite Hfs, lookup_insert_eq; eauto |]. split; [done |].
  rewrite Hfs, delete_insert_eq. by apply delete_id.
Qed.

Lemma add_then_remove_restores_witness :
  let added := (addToList (Ok movieDetail) true noon movie1399 "watched" annWorld).2 in
  let r := removeFromList true (JStr "1399") "watched" added in
  is_Some (fs added !! ("artifacts/watch-tracker/users/ann-uid/watchedList", "1399"))
  ∧ r.1 = Ok tt
  ∧ fs r.2 = ∅.
Proof.
  apply (add_then_remove_restores annWorld "ann-uid" movieDetail noon movie1399
           (JStr "1399") "watched");
    [reflexivity | reflexivity | discriminate | reflexivity | left; reflexivity
    | reflexivity].
Defined.

(** ** A request without a display name *)

(** X22. A request whose entry has no display name cannot be accepted: the
    batch refuses the undefined field while it is being built, so the
    handler rejects before any commit is sent and nothing is written. It
    can still be declined. *)
Theorem acceptRequest_without_displayName (e : Env) (accepted : bool) (now : Timestamp)
    (request : FriendRequest) (A : string) :
  db (app e) = true →
  userId (app e) = Some A →
  request_displayName request = JUndefined →
  handleFriendRequest accepted now request "accept" e = (Throw unsupported_undefined, e)
  ∧ (handleFriendRequest true now request "decline" e).1 = Ok tt.
Proof.
  intros Hdb HA Hname. split.
  - rewrite (handleFriendRequest_accept_run e accepted now request A Hdb HA).
    by rewrite Hname.
  - by rewrite (handleFriendRequest_decline_run e true now request "decline" A).
Qed.

Lemma acceptRequest_without_displayName_witness :
  let nameless := {| request_id := "sam-uid"; request_displayName := JUndefined |} in
  handleFriendRequest true noon nameless "accept" pendingWorld
  = (Throw unsupported_undefined, pendingWorld)
  ∧ (handleFriendRequest true noon nameless "decline" pendingWorld).1 = Ok tt.
Proof.
  apply (acceptRequest_without_displayName pendingWorld true noon
           {| request_id := "sam-uid"; request_displayName := JUndefined |} "ann-uid");
    reflexivity.
Defined.
